(** * canvas-font-metrics: a model of the measurement engine

    The development follows the module of the library top-down: its
    variables ([instances], [insertedBlankFonts], [defaultOptions],
    [ligatureCodes]), its utility methods ([insertblankFont], [getId],
    [setFont], [detectLigatures], [detectGlyphs], [normalize], [measureTop],
    [measureBottom]) and the asynchronous constructor [CanvasFontMetrics],
    which is modelled as a transition system over the page: a call runs its
    synchronous prefix, and every [await] is a point where other calls may be
    interleaved.

    JavaScript numbers are IEEE 754 binary64 values, here the primitive
    [float]; JavaScript strings are sequences of UTF-16 code units, here
    [list N]; plain objects are property lists in enumeration order. *)

From Stdlib Require Import Floats ZArith NArith Ascii String DecimalString.
From stdpp Require Import gmap list sorting.

Local Open Scope N_scope.

(** ** Strings *)

Abbreviation jstring := (list N).

(** A source literal, code unit by code unit. *)
Definition js (s : string) : jstring := N_of_ascii <$> list_ascii_of_string s.
Arguments js : simpl never.

(** [String.fromCharCode(n)]: the argument is taken modulo 2^16 (ToUint16). *)
Definition fromCharCode (n : N) : jstring := [n mod 65536].

(** The decimal digits of an array index, as property names are written. *)
Definition index_name (n : nat) : jstring :=
  js (NilZero.string_of_uint (Nat.to_uint n)).

(** ** Values *)

#[warnings="-register-all"]
Inductive value : Type :=
| VUndef
| VNull
| VBool (b : bool)
| VNum (x : float)
| VStr (s : jstring)
| VObj (props : list (jstring * value)).

Abbreviation object := (list (jstring * value)).

(** Own property [k] of an object, when it has one. *)
Fixpoint own (o : object) (k : jstring) : option value :=
  match o with
  | [] => None
  | (k', v) :: o' => if decide (k' = k) then Some v else own o' k
  end.

(** [o[k]] on a plain object for a name that no built-in prototype defines:
    the own property, else [undefined]. *)
Definition read (o : object) (k : jstring) : value := default VUndef (own o k).

(** [o[k] = v]: an existing property keeps its place, a new one is added
    last (the place matters to enumeration only, and the engine enumerates
    no object it has written an index-like name to). *)
Fixpoint define (o : object) (k : jstring) (v : value) : object :=
  match o with
  | [] => [(k, v)]
  | (k', v') :: o' =>
      if decide (k' = k) then (k, v) :: o' else (k', v') :: define o' k v
  end.

(** The names a [for ... in] loop visits. *)
Definition keys (o : object) : list jstring := fst <$> o.

(** What a spread [...v] copies: the own enumerable properties of [v]; the
    indexed code units of a string, nothing for the other primitives, for
    [null] and for [undefined]. *)
Definition own_enumerable (v : value) : object :=
  match v with
  | VObj o => o
  | VStr s => imap (fun i c => (index_name i, VStr [c])) s
  | _ => []
  end.

(** [{ ...target, ...v }], property by property. *)
Definition spread (target : object) (v : value) : object :=
  foldl (fun o kv => define o kv.1 kv.2) target (own_enumerable v).

(** ** Exceptions *)

Inductive exn : Type :=
| TypeError
| FontLoadError (reason : jstring).

Inductive result (A : Type) : Type :=
| Ok (a : A)
| Throw (e : exn).
Arguments Ok {A} a.
Arguments Throw {A} e.

#[global] Instance result_ret : MRet result := fun A a => Ok a.
#[global] Instance result_bind : MBind result := fun A B f r =>
  match r with
  | Ok a => f a
  | Throw e => Throw e
  end.

(** [v.k] for a name that no built-in prototype defines, [length] of a string
    apart: reading a property of [null] or [undefined] throws, a primitive
    has no such property. *)
Definition get_prop (v : value) (k : jstring) : result value :=
  match v with
  | VUndef | VNull => Throw TypeError
  | VObj o => Ok (read o k)
  | VStr s =>
      if decide (k = js "length")
      then Ok (VNum (PrimFloat.of_uint63 (Uint63.of_Z (Z.of_nat (length s)))))
      else Ok VUndef
  | VBool _ | VNum _ => Ok VUndef
  end.

(** ToBoolean: [0], [-0], [NaN], the empty string, [null] and [undefined] are
    falsy. *)
Definition to_boolean (v : value) : bool :=
  match v with
  | VUndef | VNull => false
  | VBool b => b
  | VNum x => negb (PrimFloat.is_zero x || PrimFloat.is_nan x)
  | VStr s => negb (bool_decide (s = []))
  | VObj _ => true
  end.

(** ** The state of one drawing context

    A context is private to the instance that created it. Besides the three
    attributes [setFont] assigns, the model keeps the texts handed to
    [ctx.measureText], oldest first: it is what "the surface was invoked"
    means below. *)

Record context2d : Type := Context2d {
  font : jstring;
  textAlign : jstring;
  textBaseline : value;
}.

Abbreviation probes := (list jstring).

(** Computations that measure on a context: they thread the list of texts
    measured so far. *)
Definition M (A : Type) : Type := probes -> A * probes.

#[global] Instance M_ret : MRet M := fun A a log => (a, log).
#[global] Instance M_bind : MBind M := fun A B f m log =>
  let r := m log in f r.1 r.2.

(** ** What the platform supplies

    The source leaves these to the JavaScript engine, the browser and the
    build: how a number is written as a string and a string read as a number,
    [JSON.stringify] (as the text a template literal makes of its result),
    the [TextMetrics] a configured context reports for a text (its properties
    in enumeration order), and the data URI of the blank font imported from
    [./adobe-blank.js]. *)

Class Platform : Type := {
  number_to_string : float -> jstring;
  string_to_number : jstring -> float;
  JSON_stringify : value -> jstring;
  measureText : context2d -> jstring -> object;
  blankFontDataUri : jstring;
}.

Section Engine.

Context `{Platform}.

(** *** Conversions and operators *)

(** ToString. *)
Definition to_string (v : value) : jstring :=
  match v with
  | VUndef => js "undefined"
  | VNull => js "null"
  | VBool true => js "true"
  | VBool false => js "false"
  | VNum x => number_to_string x
  | VStr s => s
  | VObj _ => js "[object Object]"
  end.

(** ToNumber. *)
Definition to_number (v : value) : float :=
  match v with
  | VUndef => PrimFloat.nan
  | VNull => 0%float
  | VBool true => 1%float
  | VBool false => 0%float
  | VNum x => x
  | VStr s => string_to_number s
  | VObj _ => PrimFloat.nan
  end.

(** [a + b]: concatenation as soon as one operand is (or converts to) a
    string, the sum of the numbers otherwise. *)
Definition js_add (a b : value) : value :=
  match a, b with
  | (VStr _ | VObj _), _ | _, (VStr _ | VObj _) =>
      VStr (to_string a ++ to_string b)
  | _, _ => VNum (to_number a + to_number b)%float
  end.

(** [a / b]. *)
Definition js_div (a b : value) : value :=
  VNum (to_number a / to_number b)%float.

(** [a > x] against a number: false whenever [a] converts to [NaN]. *)
Definition js_gt (a : value) (x : float) : bool :=
  PrimFloat.ltb x (to_number a).

(** [a === b] on primitives (numbers compare as floats do: [NaN] equals
    nothing); two object values of the model are not the same object. *)
Definition strict_eq (a b : value) : bool :=
  match a, b with
  | VUndef, VUndef | VNull, VNull => true
  | VBool x, VBool y => bool_decide (x = y)
  | VNum x, VNum y => PrimFloat.eqb x y
  | VStr x, VStr y => bool_decide (x = y)
  | _, _ => false
  end.

(** [l.indexOf(x)]: the first position holding [x], else [-1]. *)
Fixpoint indexOf_from (l : list value) (x : value) (i : Z) : Z :=
  match l with
  | [] => (-1)%Z
  | y :: l' => if strict_eq y x then i else indexOf_from l' x (i + 1)%Z
  end.

Definition number_of_Z (z : Z) : float :=
  if (z <? 0)%Z
  then (- PrimFloat.of_uint63 (Uint63.of_Z (- z)))%float
  else PrimFloat.of_uint63 (Uint63.of_Z z).

Definition indexOf (l : list value) (x : value) : value :=
  VNum (number_of_Z (indexOf_from l x 0)).

(** *** Variables *)

Definition defaultOptions : value :=
  VObj [ (js "chars", VObj [ (js "capHeight", VStr (js "S"));
                             (js "baseline", VStr (js "n"));
                             (js "xHeight", VStr (js "x"));
                             (js "descent", VStr (js "p"));
                             (js "ascent", VStr (js "h"));
                             (js "tittle", VStr (js "i")) ]);
         (js "fontSize", VNum 16%float);
         (js "baseline", VStr (js "top")) ].

Definition defaultFontWeight : value := VNum 400%float.
Definition defaultFontStyle : value := VStr (js "normal").

Definition ligatureCodes : list (jstring * N) :=
  [ (js "ff", 64256); (js "fi", 64257); (js "fl", 64258); (js "st", 64262) ].

Definition blankFontFamily : jstring := js "AdobeBlank".

(** *** The page

    [instances] maps an identity key to the address of the cached Metrics
    object; every key ends with JSON text, so none names a member of
    [Object.prototype] and the lookup is that of a finite map.
    [constructed] holds the Metrics objects built so far, oldest first, each
    with the key it was built for: an object's position is its address, and
    one entry is one run of the probe measurements. [document_head] holds the
    style elements appended to [document.head]. *)

Record style_element : Type := StyleElement {
  styleTag : jstring;
  textContent : jstring;
}.

(** The arguments of [CanvasFontMetrics]; an omitted property is
    [undefined]. *)
Record settings : Type := Settings {
  fontFamily : value;
  fontWeight : value;
  fontStyle : value;
  options : value;
}.

(** A Metrics object: the seven fields computed at construction, and what its
    three closures capture ([ctx] with the texts measured on it so far,
    [fontSize], [widths]). *)
Record metrics : Type := Metrics {
  capHeight : value;
  baseline : value;
  xHeight : value;
  descent : value;
  ascent : value;
  tittle : value;
  ligatures : list jstring;
  ctx : context2d;
  measured : probes;
  fontSize : value;
  widths : gmap jstring value;
}.

(** A call of the asynchronous constructor: suspended at its first or second
    [await] with its local variables, or settled. *)
Inductive task : Type :=
| AwaitFont (a : settings) (id : jstring)
| AwaitBlankFont (a : settings) (id : jstring)
| Fulfilled (address : nat)
| Rejected (e : exn).

Record page : Type := Page {
  instances : gmap jstring nat;
  insertedBlankFonts : list value;
  document_head : list style_element;
  constructed : list (jstring * metrics);
  tasks : list task;
}.

Definition emptyPage : page := Page ∅ [] [] [] [].

(** *** Utility methods *)

Definition nl : jstring := [10].
Definition tab : jstring := [9].

(** The text of the [@font-face] rule, as the template literal lays it out. *)
Definition blankFontCss (weight style : value) : jstring :=
  js "@font-face {" ++ nl
  ++ tab ++ tab ++ js "font-family: " ++ blankFontFamily ++ js ";" ++ nl
  ++ tab ++ tab ++ js "font-weight: " ++ to_string weight ++ js ";" ++ nl
  ++ tab ++ tab ++ js "font-style: " ++ to_string style ++ js ";" ++ nl
  ++ tab ++ tab ++ js "src: url(" ++ blankFontDataUri ++ js ") format('woff');" ++ nl
  ++ tab ++ js "}".

(** The guard of [insertblankFont]:
    [insertedBlankFonts.indexOf(id).length > -1]. [indexOf] returns a number,
    whose [length] is read and compared. *)
Definition alreadyInserted (registry : list value) (id : value) : result bool :=
  len ← get_prop (indexOf registry id) (js "length");
  mret (js_gt len (-1)%float).

Definition insertblankFont (weight style : value) (p : page) : result page :=
  let id := js_add weight style in
  found ← alreadyInserted (insertedBlankFonts p) id;
  if (found : bool) then mret p
  else
    let css := blankFontCss weight style in
    let styleEl := StyleElement (js "text/css") css in
    mret (Page (instances p)
               (insertedBlankFonts p ++ [id])
               (document_head p ++ [styleEl])
               (constructed p)
               (tasks p)).

Definition getId (a : settings) : jstring :=
  to_string (fontFamily a) ++ to_string (fontWeight a)
  ++ to_string (fontStyle a) ++ JSON_stringify (options a).

(** [setFont] on a fresh context: the three attributes as assigned. *)
Definition setFont (fontFamily fontWeight fontStyle fontSize baseline : value)
  : context2d :=
  Context2d
    (to_string fontWeight ++ js " " ++ to_string fontStyle ++ js " "
     ++ to_string fontSize ++ js "px " ++ to_string fontFamily ++ js ", "
     ++ blankFontFamily)
    (js "left")
    baseline.

(** [ctx.measureText(text)]: the argument is converted to a string, and the
    call is recorded. *)
Definition ctx_measureText (ctx : context2d) (text : value) : M object :=
  fun log => (measureText ctx (to_string text), log ++ [to_string text]).

(** [codes[lig]], converted as [String.fromCharCode] converts its argument
    (a missing entry is [undefined], which converts to [0]). *)
Fixpoint code_of (codes : list (jstring * N)) (lig : jstring) : N :=
  match codes with
  | [] => 0
  | (k, c) :: codes' => if decide (k = lig) then c else code_of codes' lig
  end.

Fixpoint detectLigatures_in (ctx : context2d) (ligs : list jstring)
    (detected : list jstring) : M (list jstring) :=
  match ligs with
  | [] => mret detected
  | lig :: ligs' =>
      tm ← ctx_measureText ctx (VStr (fromCharCode (code_of ligatureCodes lig)));
      detectLigatures_in ctx ligs'
        (if js_gt (read tm (js "width")) 0 then detected ++ [lig] else detected)
  end.

Definition detectLigatures (ctx : context2d) : M (list jstring) :=
  detectLigatures_in ctx (fst <$> ligatureCodes) [].

(** The loop of [detectGlyphs] from counter [i]; [n] bounds the number of
    iterations still allowed, and [detectGlyphs] allows one more than the
    loop can take. *)
Fixpoint detectGlyphs_from (ctx : context2d) (n : nat) (i : N)
    (detected : list jstring) : M (list jstring) :=
  match n with
  | O => mret detected
  | S n' =>
      if decide (i <= 65535) then
        let string := fromCharCode i in
        tm ← ctx_measureText ctx (VStr string);
        detectGlyphs_from ctx n' (i + 1)
          (if js_gt (read tm (js "width")) 0
           then detected ++ [string] else detected)
      else mret detected
  end.

Definition detectGlyphs (ctx : context2d) : M (list jstring) :=
  detectGlyphs_from ctx (N.to_nat 65537) 0 [].

(** One property of [normalize]'s result. *)
Definition normalized_value (measurements : object) (fontSize : value)
    (prop : jstring) : value :=
  if to_boolean (read measurements prop)
  then js_div (read measurements prop) fontSize
  else read measurements prop.

Definition normalize (measurements : object) (fontSize : value) : object :=
  foldl (fun normalized prop =>
           define normalized prop (normalized_value measurements fontSize prop))
        [] (keys measurements).

Definition measureTop (ctx : context2d) (string fontSize : value) : M value :=
  tm ← ctx_measureText ctx string;
  mret (js_div (read tm (js "actualBoundingBoxAscent")) fontSize).

Definition measureBottom (ctx : context2d) (string fontSize : value) : M value :=
  tm ← ctx_measureText ctx string;
  mret (js_div (read tm (js "actualBoundingBoxDescent")) fontSize).

(** What the surface reports for a text, before any division: the three
    attributes of [TextMetrics] the engine reads. *)
Definition rawAscent (ctx : context2d) (text : value) : value :=
  read (measureText ctx (to_string text)) (js "actualBoundingBoxAscent").

Definition rawDescent (ctx : context2d) (text : value) : value :=
  read (measureText ctx (to_string text)) (js "actualBoundingBoxDescent").

Definition rawWidth (ctx : context2d) (text : value) : value :=
  read (measureText ctx (to_string text)) (js "width").

(** A text the surface renders with a width greater than zero. *)
Definition hasWidth (ctx : context2d) (text : jstring) : bool :=
  js_gt (read (measureText ctx text) (js "width")) 0.

(** The code points [detectGlyphs] visits from [i] on, in order. *)
Definition codesFrom (i : N) : list N :=
  N.of_nat <$> seq (N.to_nat i) (N.to_nat (65536 - i)).

(** *** The constructor *)

(** A default value applies to a property that is [undefined], not to one
    that is [null]. *)
Definition or_default (v d : value) : value :=
  match v with
  | VUndef => d
  | _ => v
  end.

Definition with_defaults (a : settings) : settings :=
  Settings (fontFamily a)
           (or_default (fontWeight a) defaultFontWeight)
           (or_default (fontStyle a) defaultFontStyle)
           (or_default (options a) (VObj [])).

(** The object literal [mergedOptions]: its [chars] property first, then the
    spread of [defaultOptions], then the spread of [options]. *)
Definition mergedOptions (options : value) : result object :=
  defaultChars ← get_prop defaultOptions (js "chars");
  optionChars ← get_prop options (js "chars");
  let chars := VObj (spread (spread [] defaultChars) optionChars) in
  mret (spread (spread (define [] (js "chars") chars) defaultOptions) options).

(** The object literal [metrics], evaluated on the fresh context: six anchor
    measurements, then the ligatures. *)
Definition probe (ctx : context2d) (fontSize : value)
    (cCapHeight cBaseline cXHeight cDescent cAscent cTittle : value)
  : M (probes -> metrics) :=
  capHeight ← measureTop ctx cCapHeight fontSize;
  baseline ← measureBottom ctx cBaseline fontSize;
  xHeight ← measureTop ctx cXHeight fontSize;
  descent ← measureBottom ctx cDescent fontSize;
  ascent ← measureTop ctx cAscent fontSize;
  tittle ← measureTop ctx cTittle fontSize;
  ligatures ← detectLigatures ctx;
  mret (fun log => Metrics capHeight baseline xHeight descent ascent tittle
                           ligatures ctx log fontSize ∅).

(** What follows the two awaits, up to the Metrics object. The six reads of
    [chars] are on one value: they throw together (before any measurement)
    or not at all. *)
Definition construct (a : settings) : result metrics :=
  merged ← mergedOptions (options a);
  let fontSize := read merged (js "fontSize") in
  let chars := read merged (js "chars") in
  let baseline := read merged (js "baseline") in
  let ctx := setFont (fontFamily a) (fontWeight a) (fontStyle a) fontSize baseline in
  cCapHeight ← get_prop chars (js "capHeight");
  cBaseline ← get_prop chars (js "baseline");
  cXHeight ← get_prop chars (js "xHeight");
  cDescent ← get_prop chars (js "descent");
  cAscent ← get_prop chars (js "ascent");
  cTittle ← get_prop chars (js "tittle");
  let r := probe ctx fontSize cCapHeight cBaseline cXHeight cDescent cAscent
                 cTittle [] in
  mret (r.1 r.2).

(** The anchor character [construct] reads for a metric: [chars[name]] of
    the merged options. *)
Definition anchorChar (a : settings) (name : jstring) : result value :=
  merged ← mergedOptions (options a);
  get_prop (read merged (js "chars")) name.

Definition spawn (p : page) (t : task) : page :=
  Page (instances p) (insertedBlankFonts p) (document_head p) (constructed p)
       (tasks p ++ [t]).

Definition set_task (p : page) (t : nat) (x : task) : page :=
  Page (instances p) (insertedBlankFonts p) (document_head p) (constructed p)
       (<[t := x]> (tasks p)).

(** [instances[id] = metrics] for a new object, which takes the next
    address. *)
Definition cache (p : page) (id : jstring) (m : metrics) : page :=
  Page (<[id := length (constructed p)]> (instances p))
       (insertedBlankFonts p) (document_head p)
       (constructed p ++ [(id, m)]) (tasks p).

(** The call itself: everything up to the first [await]. *)
Definition call (a0 : settings) (p : page) : page :=
  let a := with_defaults a0 in
  let id := getId a in
  match instances p !! id with
  | Some address => spawn p (Fulfilled address)
  | None =>
      match insertblankFont (fontWeight a) (fontStyle a) p with
      | Ok p' => spawn p' (AwaitFont a id)
      | Throw e => spawn p (Rejected e)
      end
  end.

(** The observer a task waits on reports the font loaded: the task goes on
    to its next [await], or from the second one to its end. *)
Definition fontLoaded (t : nat) (p : page) : page :=
  match tasks p !! t with
  | Some (AwaitFont a id) => set_task p t (AwaitBlankFont a id)
  | Some (AwaitBlankFont a id) =>
      match construct a with
      | Ok m => set_task (cache p id m) t (Fulfilled (length (constructed p)))
      | Throw e => set_task p t (Rejected e)
      end
  | _ => p
  end.

(** The observer a task waits on rejects: the [await] throws and nothing
    catches it. *)
Definition fontFailed (t : nat) (e : exn) (p : page) : page :=
  match tasks p !! t with
  | Some (AwaitFont _ _) | Some (AwaitBlankFont _ _) => set_task p t (Rejected e)
  | _ => p
  end.

(** What can happen on the page, in any order: a new call, and the settling
    of the wait of a suspended task. *)
Inductive event : Type :=
| Call (a : settings)
| FontLoaded (t : nat)
| FontFailed (t : nat) (e : exn).

Definition step (p : page) (ev : event) : page :=
  match ev with
  | Call a => call a p
  | FontLoaded t => fontLoaded t p
  | FontFailed t e => fontFailed t e p
  end.

Definition run (p : page) (evs : list event) : page := foldl step p evs.

(** *** The closures of a Metrics object *)

(** The names [Object.prototype] defines; [widths[k]] finds them when
    [widths] has no own property [k]. *)
Definition objectPrototype : list jstring :=
  js <$> [ "constructor"; "__defineGetter__"; "__defineSetter__";
           "hasOwnProperty"; "__lookupGetter__"; "__lookupSetter__";
           "isPrototypeOf"; "propertyIsEnumerable"; "toString"; "valueOf";
           "__proto__"; "toLocaleString" ]%string.

(** What [widths[k]] evaluates to: a stored width, [undefined], or a member
    of [Object.prototype]. *)
Inductive looked_up : Type :=
| Plain (v : value)
| Builtin (name : jstring).

Definition truthy (x : looked_up) : bool :=
  match x with
  | Plain v => to_boolean v
  | Builtin _ => true
  end.

Definition widths_get (w : gmap jstring value) (k : jstring) : looked_up :=
  match w !! k with
  | Some v => Plain v
  | None => if bool_decide (k ∈ objectPrototype) then Builtin k
            else Plain VUndef
  end.

Definition with_state (m : metrics) (log : probes) (w : gmap jstring value)
  : metrics :=
  Metrics (capHeight m) (baseline m) (xHeight m) (descent m) (ascent m)
          (tittle m) (ligatures m) (ctx m) log (fontSize m) w.

Definition getGlyphs (m : metrics) : list jstring * metrics :=
  let r := detectGlyphs (ctx m) (measured m) in
  (r.1, with_state m r.2 (widths m)).

Definition measureWidth (string : value) (m : metrics) : looked_up * metrics :=
  let k := to_string string in
  if truthy (widths_get (widths m) k) then (widths_get (widths m) k, m)
  else
    let r := ctx_measureText (ctx m) string (measured m) in
    let w := <[k := js_div (read r.1 (js "width")) (fontSize m)]> (widths m) in
    (widths_get w k, with_state m r.2 w).

Definition metrics_measureText (string : value) (m : metrics)
  : object * metrics :=
  let r := ctx_measureText (ctx m) string (measured m) in
  (normalize r.1 (fontSize m), with_state m r.2 (widths m)).

End Engine.

(** ** Platforms to run the model on

    The runs below (the scenarios of the theorems) need the platform's
    functions in the concrete. Numbers and JSON are written as an engine
    writes them on the values the runs use; three drawing surfaces stand for
    three fonts. *)

Definition digits (n : N) : jstring := js (NilZero.string_of_uint (N.to_uint n)).

Fixpoint drop_zeros (s : jstring) : jstring :=
  match s with
  | 48 :: s' => drop_zeros s'
  | _ => s
  end.

(** The fraction [n / 10^k] after the point: [k] digits, without the zeros
    at the end. *)
Definition fraction_digits (k : nat) (n : N) : jstring :=
  let d := digits n in
  reverse (drop_zeros (reverse (replicate (k - length d) 48 ++ d))).

(** Number::toString on the integers below 10^21, on zero, [NaN] and the
    infinities. Another number is written with every digit of its exact
    value, where an engine stops at the shortest text that reads back as the
    same number; the runs write no such number. *)
Definition write_number (x : float) : jstring :=
  match Prim2SF x with
  | S754_nan => js "NaN"
  | S754_infinity s => (if s then js "-" else []) ++ js "Infinity"
  | S754_zero _ => js "0"
  | S754_finite s m e =>
      (if s then js "-" else []) ++
      (if (0 <=? e)%Z then digits (N.pos m * 2 ^ Z.to_N e)
       else
         let k := Z.to_N (- e) in
         let q := N.pos m / 2 ^ k in
         let r := N.pos m mod 2 ^ k in
         if r =? 0 then digits q
         else digits q ++ js "." ++ fraction_digits (N.to_nat k) (r * 5 ^ k))
  end.

Definition digits_value (s : jstring) : option N :=
  foldl (fun acc c =>
           n ← acc;
           if bool_decide (48 <= c <= 57) then Some (10 * n + (c - 48)) else None)
        (Some 0) s.

(** StringToNumber on the empty string and on strings of decimal digits;
    [NaN] for any other string, where an engine also reads signs, fractions,
    exponents and surrounding blanks. No run converts a string to a number. *)
Definition read_number (s : jstring) : float :=
  match digits_value s with
  | Some n => SF2Prim (binary_normalize prec emax (Z.of_N n) 0 false)
  | None => PrimFloat.nan
  end.

Definition hex_digit (n : N) : N := if n <? 10 then 48 + n else 87 + n.

(** One code unit inside a JSON string. *)
Definition json_unit (c : N) : jstring :=
  if c =? 34 then js "\" ++ [34]
  else if c =? 92 then js "\\"
  else if c =? 8 then js "\b"
  else if c =? 9 then js "\t"
  else if c =? 10 then js "\n"
  else if c =? 12 then js "\f"
  else if c =? 13 then js "\r"
  else if c <? 32 then js "\u00" ++ [hex_digit (c / 16); hex_digit (c mod 16)]
  else [c].

Definition json_quote (s : jstring) : jstring :=
  [34] ++ mjoin (json_unit <$> s) ++ [34].

Definition comma_separated (l : list jstring) : jstring :=
  match l with
  | [] => []
  | x :: l' => x ++ mjoin ((fun y => js "," ++ y) <$> l')
  end.

(** [JSON.stringify] on the values of the model ([None] is [undefined]); a
    string holds no unpaired surrogate. *)
Fixpoint json_text (v : value) : option jstring :=
  match v with
  | VUndef => None
  | VNull => Some (js "null")
  | VBool true => Some (js "true")
  | VBool false => Some (js "false")
  | VNum x =>
      Some (if PrimFloat.is_nan x || PrimFloat.is_infinity x then js "null"
            else write_number x)
  | VStr s => Some (json_quote s)
  | VObj o =>
      let members :=
        (fix members (o : object) : list jstring :=
           match o with
           | [] => []
           | (k, x) :: o' =>
               match json_text x with
               | Some t => (json_quote k ++ js ":" ++ t) :: members o'
               | None => members o'
               end
           end) o in
      Some (js "{" ++ comma_separated members ++ js "}")
  end.

Definition stringify (v : value) : jstring :=
  default (js "undefined") (json_text v).

Definition number_of_nat (n : nat) : float :=
  PrimFloat.of_uint63 (Uint63.of_Z (Z.of_nat n)).

(** A monospaced font that has every character: 8 units a character, 12
    above the line the text is aligned on and 4 below it. *)
Definition monospaceMetrics (_ : context2d) (text : jstring) : object :=
  [ (js "width", VNum (number_of_nat (8 * length text)));
    (js "actualBoundingBoxAscent", VNum (if text is [] then 0 else 12)%float);
    (js "actualBoundingBoxDescent", VNum (if text is [] then 0 else 4)%float) ].

(** The same font on a canvas whose [TextMetrics] has [width] alone, as
    browsers reported before the bounding-box attributes. *)
Definition widthOnlyMetrics (_ : context2d) (text : jstring) : object :=
  [ (js "width", VNum (number_of_nat (8 * length text))) ].

(** A font with no glyph at all: every text falls to the blank font and has
    no extent. *)
Definition blankMetrics (_ : context2d) (text : jstring) : object :=
  [ (js "width", VNum 0%float);
    (js "actualBoundingBoxAscent", VNum 0%float);
    (js "actualBoundingBoxDescent", VNum 0%float) ].

(** Stands for the URI exported by [./adobe-blank.js], which is only copied
    into the text of the style rule. *)
Definition blankUri : jstring := js "data:application/font-woff;base64,d09GRg".

Definition monospace : Platform :=
  Build_Platform write_number read_number stringify monospaceMetrics blankUri.

Definition widthOnly : Platform :=
  Build_Platform write_number read_number stringify widthOnlyMetrics blankUri.

Definition blank : Platform :=
  Build_Platform write_number read_number stringify blankMetrics blankUri.

(** The call of the usage example in the README, which passes
    [options: null]. *)
Definition usageExample : settings :=
  Settings (VStr (js "Helvetica")) (VNum 400%float) (VStr (js "normal")) VNull.

(** The same call with [options] left out. *)
Definition helvetica : settings :=
  Settings (VStr (js "Helvetica")) (VNum 400%float) (VStr (js "normal")) VUndef.

(** The rejection reported when a font does not load in time. *)
Definition loadTimeout : exn := FontLoadError (js "3000ms timeout exceeded").

(** ** Histories

    What a user does with the page and with an instance over time: the calls
    of the factory among the events of a run, in order (the n-th call is the
    n-th task), and the calls of the three closures of a Metrics object one
    after the other, each on the state the one before left. *)

Section Histories.

Context `{Platform}.

Definition calls (evs : list event) : list settings :=
  omap (fun ev => match ev with Call a => Some a | _ => None end) evs.

(** A task that is still suspended at one of its two awaits. *)
Definition awaiting (t : task) : bool :=
  match t with
  | AwaitFont _ _ | AwaitBlankFont _ _ => true
  | Fulfilled _ | Rejected _ => false
  end.

(** What holds of a page together with the factory calls made on it so
    far: the n-th task belongs to the n-th call; a suspended task carries
    the settings of its call with the defaults filled in, and their key; a
    fulfilled task, like an entry of the cache, holds the address of an
    object built for its key; and every object was built by [construct]
    from the settings of one of the calls. *)
Definition page_invariant (cs : list settings) (p : page) : Prop :=
  length (tasks p) = length cs
  /\ (forall k a0 x,
         cs !! k = Some a0 -> tasks p !! k = Some x ->
         match x with
         | AwaitFont a id | AwaitBlankFont a id =>
             a = with_defaults a0 /\ id = getId a
         | Fulfilled address =>
             exists m, constructed p !! address = Some (getId (with_defaults a0), m)
         | Rejected _ => True
         end)
  /\ (forall id address,
         instances p !! id = Some address ->
         exists m, constructed p !! address = Some (id, m))
  /\ (forall address id m,
         constructed p !! address = Some (id, m) ->
         exists a0, a0 ∈ cs /\ id = getId (with_defaults a0)
                    /\ construct (with_defaults a0) = Ok m).

#[global] Instance exn_eq_dec : EqDecision exn.
Proof. solve_decision. Defined.


(** How many tasks are still suspended. *)
Definition pending (l : list task) : nat :=
  length (filter (fun t => awaiting t = true) l).

Inductive method : Type :=
| GetGlyphs
| MeasureWidth (string : value)
| MeasureText (string : value).

Definition invoke (m : metrics) (c : method) : metrics :=
  match c with
  | GetGlyphs => (getGlyphs m).2
  | MeasureWidth string => (measureWidth string m).2
  | MeasureText string => (metrics_measureText string m).2
  end.

Definition invoke_all (m : metrics) (cs : list method) : metrics :=
  foldl invoke m cs.

End Histories.

(** * Properties *)

Section Properties.

Context `{Platform}.

(** ** Objects *)

Lemma own_define (o : object) k v k' :
  own (define o k v) k' = if decide (k = k') then Some v else own o k'.
Proof.
  induction o as [|[k0 v0] o IH]; simpl.
  - destruct (decide (k = k')); reflexivity.
  - destruct (decide (k0 = k)) as [->|Hne]; simpl.
    + destruct (decide (k = k')); reflexivity.
    + rewrite IH. destruct (decide (k0 = k')) as [->|]; [|reflexivity].
      destruct (decide (k = k')); congruence.
Qed.

Lemma own_keys (o : object) k : is_Some (own o k) <-> k ∈ keys o.
Proof.
  unfold keys. induction o as [|[k0 v0] o IH]; simpl.
  - split; [intros [? ?]; discriminate | intros Hin; inversion Hin].
  - destruct (decide (k0 = k)) as [->|Hne].
    + split; [intros _; left | intros _; eexists; reflexivity].
    + rewrite IH. split; [intros Hin; right; exact Hin|].
      intros Hin. inversion Hin; subst; [congruence | assumption].
Qed.

(** A loop that defines [f k] for every name of [ks]. *)
Lemma own_foldl_define (f : jstring -> value) ks (acc : object) k :
  own (foldl (fun o k0 => define o k0 (f k0)) acc ks) k
  = if bool_decide (k ∈ ks) then Some (f k) else own acc k.
Proof.
  revert acc. induction ks as [|k0 ks IH]; intros acc; cbn [foldl].
  - case_bool_decide as Hin; [inversion Hin | reflexivity].
  - rewrite IH, own_define.
    destruct (decide (k0 = k)) as [->|Hne].
    + rewrite (bool_decide_eq_true_2 (k ∈ k :: ks)) by left.
      case_bool_decide; reflexivity.
    + repeat case_bool_decide; try reflexivity.
      * exfalso. match goal with Hn : k ∉ k0 :: ks |- _ => apply Hn end.
        right. assumption.
      * exfalso. match goal with Hin : k ∈ k0 :: ks |- _ => inversion Hin; subst end;
          [congruence | contradiction].
Qed.

(** ** The backup face *)

(** The guard never holds: the [length] of a number is [undefined], which
    compares as [NaN]. *)
Lemma alreadyInserted_false registry id : alreadyInserted registry id = Ok false.
Proof. reflexivity. Qed.

Lemma insertblankFont_eq weight style p :
  insertblankFont weight style p
  = Ok (Page (instances p)
             (insertedBlankFonts p ++ [js_add weight style])
             (document_head p
              ++ [StyleElement (js "text/css") (blankFontCss weight style)])
             (constructed p) (tasks p)).
Proof. reflexivity. Qed.

Lemma call_miss a p :
  instances p !! getId (with_defaults a) = None ->
  call a p
  = Page (instances p)
         (insertedBlankFonts p
          ++ [js_add (fontWeight (with_defaults a)) (fontStyle (with_defaults a))])
         (document_head p
          ++ [StyleElement (js "text/css")
                (blankFontCss (fontWeight (with_defaults a))
                              (fontStyle (with_defaults a)))])
         (constructed p)
         (tasks p ++ [AwaitFont (with_defaults a) (getId (with_defaults a))]).
Proof. intros Hmiss. unfold call. rewrite Hmiss. reflexivity. Qed.

Lemma call_hit a p address :
  instances p !! getId (with_defaults a) = Some address ->
  call a p = spawn p (Fulfilled address).
Proof. intros Hhit. unfold call. rewrite Hhit. reflexivity. Qed.

Lemma run_cons p ev evs : run p (ev :: evs) = run (step p ev) evs.
Proof. reflexivity. Qed.

Lemma run_app p evs evs' : run p (evs ++ evs') = run (run p evs) evs'.
Proof. apply foldl_app. Qed.

Lemma calls_before_any_load (l : list settings) p :
  instances p = ∅ ->
  instances (run p (Call <$> l)) = ∅
  /\ length (document_head (run p (Call <$> l)))
     = (length (document_head p) + length l)%nat
  /\ length (insertedBlankFonts (run p (Call <$> l)))
     = (length (insertedBlankFonts p) + length l)%nat.
Proof.
  revert p. induction l as [|a l IH]; intros p Hempty.
  - cbn. repeat split; [assumption | lia | lia].
  - assert (Hmiss : instances p !! getId (with_defaults a) = None)
      by (rewrite Hempty; apply lookup_empty).
    rewrite fmap_cons, run_cons. cbn [step]. rewrite (call_miss _ _ Hmiss).
    match goal with |- context [run ?q _] => set (p' := q) end.
    destruct (IH p' Hempty) as (Hi & Hh & Hr).
    rewrite Hi, Hh, Hr. subst p'. cbn [document_head insertedBlankFonts].
    rewrite !length_app. cbn [length]. repeat split; lia.
Qed.

(** C2 (the code against the claim): [insertblankFont] declares the backup
    face on every call. A second call for the same (weight, style) pair, with
    the pair already in the registry, appends a second style element and a
    second registry entry; and the calls of the factory for any list of
    settings, all issued before a font has loaded (ten families at one
    weight and style, say), leave one style element each. *)
Theorem insertblankFont_registers_on_every_call weight style p (l : list settings) :
  let id := js_add weight style in
  let styleEl := StyleElement (js "text/css") (blankFontCss weight style) in
  (exists p1 p2,
      insertblankFont weight style p = Ok p1
      /\ insertblankFont weight style p1 = Ok p2
      /\ insertedBlankFonts p2 = insertedBlankFonts p ++ [id; id]
      /\ document_head p2 = document_head p ++ [styleEl; styleEl])
  /\ length (document_head (run emptyPage (Call <$> l))) = length l.
Proof.
  intros id styleEl. split.
  - eexists _, _.
    split; [apply insertblankFont_eq|]. split; [apply insertblankFont_eq|].
    cbn [insertedBlankFonts document_head].
    split; rewrite <- app_assoc; reflexivity.
  - destruct (calls_before_any_load l emptyPage eq_refl) as (_ & Hh & _).
    rewrite Hh. reflexivity.
Qed.

(** ** The merge of the options *)

Lemma own_app (o o' : object) k :
  own (o ++ o') k = match own o k with Some v => Some v | None => own o' k end.
Proof.
  induction o as [|[k0 v0] o IH]; [reflexivity|].
  cbn [app own]. destruct (decide (k0 = k)); [reflexivity | apply IH].
Qed.

(** A spread defines the properties in order: the last one of a name wins. *)
Lemma own_spread (t o : object) k :
  own (spread t (VObj o)) k
  = match own (reverse o) k with Some v => Some v | None => own t k end.
Proof.
  unfold spread. cbn [own_enumerable].
  revert t. induction o as [|[k0 v0] o IH]; intros t; [reflexivity|].
  cbn [foldl]. rewrite IH, reverse_cons, own_app, own_define. cbn [fst snd own].
  destruct (own (reverse o) k); [reflexivity|].
  destruct (decide (k0 = k)); reflexivity.
Qed.

(** In an object (no name twice) it is the only one. *)
Lemma own_reverse (o : object) k : NoDup (keys o) -> own (reverse o) k = own o k.
Proof.
  unfold keys. induction o as [|[k0 v0] o IH]; [reflexivity|].
  rewrite fmap_cons, NoDup_cons. cbn [fst]. intros [Hnotin Hnodup].
  rewrite reverse_cons, own_app, (IH Hnodup). cbn [own].
  destruct (decide (k0 = k)) as [->|Hne].
  - destruct (own o k) eqn:Hown; [|reflexivity].
    exfalso. apply Hnotin. apply (own_keys o k). eexists; exact Hown.
  - destruct (own o k); reflexivity.
Qed.

(** What the merge amounts to on an options object: each of the three
    properties is the caller's when the caller has it, the default one
    otherwise; [chars] is taken whole, like the other two. *)
Lemma mergedOptions_object (o : object) :
  NoDup (keys o) ->
  exists merged,
    mergedOptions (VObj o) = Ok merged
    /\ read merged (js "chars")
       = default (read (own_enumerable defaultOptions) (js "chars"))
                 (own o (js "chars"))
    /\ read merged (js "fontSize") = default (VNum 16%float) (own o (js "fontSize"))
    /\ read merged (js "baseline")
       = default (VStr (js "top")) (own o (js "baseline")).
Proof.
  intros Hnodup. eexists. split; [reflexivity|].
  unfold read. rewrite !own_spread, !(own_reverse o _ Hnodup).
  repeat split.
  - destruct (own o (js "chars")); reflexivity.
  - destruct (own o (js "fontSize")); reflexivity.
  - destruct (own o (js "baseline")); reflexivity.
Qed.

(** C3 (the code against the claim): with options that supply one anchor
    character, [{ chars: { capHeight: 'H' } }], the merged [chars] is the
    caller's object alone. The spread of [defaultOptions] and of [options]
    come after the [chars] property that merges the two and replace it, so
    the five anchor characters the caller did not supply are [undefined],
    not the default ones; [fontSize] and [baseline] keep their defaults. *)
Theorem mergedOptions_partial_chars_lose_defaults :
  let given := VObj [ (js "capHeight", VStr (js "H")) ] in
  exists merged,
    mergedOptions (VObj [ (js "chars", given) ]) = Ok merged
    /\ read merged (js "chars") = given
    /\ get_prop (read merged (js "chars")) (js "capHeight") = Ok (VStr (js "H"))
    /\ get_prop (read merged (js "chars")) (js "baseline") = Ok VUndef
    /\ get_prop (read merged (js "chars")) (js "xHeight") = Ok VUndef
    /\ read merged (js "fontSize") = VNum 16%float
    /\ read merged (js "baseline") = VStr (js "top").
Proof.
  intros given. eexists. split; [reflexivity|].
  vm_compute. repeat split.
Qed.

(** ** Normalization *)

Lemma measureTop_eq ctx string fontSize log :
  measureTop ctx string fontSize log
  = (VNum (to_number (rawAscent ctx string) / to_number fontSize)%float,
     log ++ [to_string string]).
Proof. reflexivity. Qed.

Lemma measureBottom_eq ctx string fontSize log :
  measureBottom ctx string fontSize log
  = (VNum (to_number (rawDescent ctx string) / to_number fontSize)%float,
     log ++ [to_string string]).
Proof. reflexivity. Qed.

Lemma read_normalize (measurements : object) fontSize prop :
  read (normalize measurements fontSize) prop
  = if to_boolean (read measurements prop)
    then VNum (to_number (read measurements prop) / to_number fontSize)%float
    else read measurements prop.
Proof.
  unfold normalize, read at 1.
  rewrite (own_foldl_define (normalized_value measurements fontSize)).
  case_bool_decide as Hin; [reflexivity|].
  assert (Hnone : own measurements prop = None).
  { destruct (own measurements prop) eqn:Hown; [|reflexivity].
    exfalso. apply Hin, own_keys. eexists; exact Hown. }
  unfold read. rewrite Hnone. reflexivity.
Qed.

Lemma construct_ok a m :
  construct a = Ok m ->
  exists merged cCapHeight cBaseline cXHeight cDescent cAscent cTittle,
    mergedOptions (options a) = Ok merged
    /\ get_prop (read merged (js "chars")) (js "capHeight") = Ok cCapHeight
    /\ get_prop (read merged (js "chars")) (js "baseline") = Ok cBaseline
    /\ get_prop (read merged (js "chars")) (js "xHeight") = Ok cXHeight
    /\ get_prop (read merged (js "chars")) (js "descent") = Ok cDescent
    /\ get_prop (read merged (js "chars")) (js "ascent") = Ok cAscent
    /\ get_prop (read merged (js "chars")) (js "tittle") = Ok cTittle
    /\ m = (let fontSize := read merged (js "fontSize") in
            let ctx := setFont (fontFamily a) (fontWeight a) (fontStyle a)
                               fontSize (read merged (js "baseline")) in
            let r := probe ctx fontSize cCapHeight cBaseline cXHeight cDescent
                           cAscent cTittle [] in
            r.1 r.2).
Proof.
  unfold construct. intros Hm.
  destruct (mergedOptions (options a)) as [merged|e] eqn:Hmerged;
    [|discriminate].
  cbn [mbind result_bind] in Hm.
  repeat match type of Hm with
  | context [get_prop ?c ?k] =>
      let Hk := fresh "Hk" in
      destruct (get_prop c k) eqn:Hk; [cbn [mbind result_bind] in Hm | discriminate]
  end.
  injection Hm as <-. do 7 eexists. repeat split; try eassumption; reflexivity.
Qed.

(** C4 (as amended): every anchor metric of a constructed instance is the
    raw bounding-box measurement of its anchor character converted to a
    number and divided by the merged [fontSize], with no pass-through (an
    [undefined] measurement gives [NaN]); every property [measureText]
    returns is the raw one divided by [fontSize] when the raw one is truthy,
    and the raw one unchanged when it is falsy. *)
Theorem anchors_divided_measureText_normalized a m string prop :
  construct a = Ok m ->
  (exists merged cCapHeight cBaseline cXHeight cDescent cAscent cTittle,
      mergedOptions (options a) = Ok merged
      /\ fontSize m = read merged (js "fontSize")
      /\ anchorChar a (js "capHeight") = Ok cCapHeight
      /\ anchorChar a (js "baseline") = Ok cBaseline
      /\ anchorChar a (js "xHeight") = Ok cXHeight
      /\ anchorChar a (js "descent") = Ok cDescent
      /\ anchorChar a (js "ascent") = Ok cAscent
      /\ anchorChar a (js "tittle") = Ok cTittle
      /\ capHeight m
         = VNum (to_number (rawAscent (ctx m) cCapHeight) / to_number (fontSize m))%float
      /\ baseline m
         = VNum (to_number (rawDescent (ctx m) cBaseline) / to_number (fontSize m))%float
      /\ xHeight m
         = VNum (to_number (rawAscent (ctx m) cXHeight) / to_number (fontSize m))%float
      /\ descent m
         = VNum (to_number (rawDescent (ctx m) cDescent) / to_number (fontSize m))%float
      /\ ascent m
         = VNum (to_number (rawAscent (ctx m) cAscent) / to_number (fontSize m))%float
      /\ tittle m
         = VNum (to_number (rawAscent (ctx m) cTittle) / to_number (fontSize m))%float)
  /\ read (metrics_measureText string m).1 prop
     = (let raw := read (measureText (ctx m) (to_string string)) prop in
        if to_boolean raw
        then VNum (to_number raw / to_number (fontSize m))%float
        else raw).
Proof.
  intros Hm. split.
  - destruct (construct_ok a m Hm)
      as (merged & c1 & c2 & c3 & c4 & c5 & c6 & Hmerged & H1 & H2 & H3 & H4 & H5 & H6 & ->).
    exists merged, c1, c2, c3, c4, c5, c6.
    unfold anchorChar. rewrite Hmerged. cbn [mbind result_bind].
    repeat split; try assumption; reflexivity.
  - apply read_normalize.
Qed.

(** ** The two scans *)

Lemma detectLigatures_in_eq ctx ligs detected log :
  detectLigatures_in ctx ligs detected log
  = (detected
     ++ filter (fun lig => hasWidth ctx (fromCharCode (code_of ligatureCodes lig)) = true) ligs,
     log ++ ((fun lig => fromCharCode (code_of ligatureCodes lig)) <$> ligs)).
Proof.
  revert detected log. induction ligs as [|lig ligs IH]; intros detected log.
  - cbn. rewrite !app_nil_r. reflexivity.
  - cbn [detectLigatures_in]. unfold mbind, M_bind, ctx_measureText.
    cbn [fst snd to_string]. rewrite IH, fmap_cons, filter_cons.
    fold (hasWidth ctx (fromCharCode (code_of ligatureCodes lig))).
    destruct (hasWidth ctx (fromCharCode (code_of ligatureCodes lig))) eqn:Hw.
    + rewrite decide_True by reflexivity.
      rewrite <- !app_assoc. reflexivity.
    + rewrite decide_False by discriminate.
      rewrite <- !app_assoc. reflexivity.
Qed.

Lemma codesFrom_cons i : i <= 65535 -> codesFrom i = i :: codesFrom (i + 1).
Proof.
  intros Hi. unfold codesFrom.
  replace (N.to_nat (65536 - i)) with (S (N.to_nat (65536 - (i + 1)))) by lia.
  cbn [seq]. rewrite fmap_cons, N2Nat.id.
  replace (N.to_nat (i + 1)) with (S (N.to_nat i)) by lia. reflexivity.
Qed.

Lemma codesFrom_nil i : ~ i <= 65535 -> codesFrom i = [].
Proof.
  intros Hi. unfold codesFrom.
  replace (N.to_nat (65536 - i)) with 0%nat by lia. reflexivity.
Qed.

(** The loop with enough iterations allowed: it stops on its condition. *)
Lemma detectGlyphs_from_eq ctx n i detected log :
  (N.to_nat (65536 - i) <= n)%nat ->
  detectGlyphs_from ctx n i detected log
  = (detected
     ++ (fromCharCode <$> filter (fun c => hasWidth ctx (fromCharCode c) = true) (codesFrom i)),
     log ++ (fromCharCode <$> codesFrom i)).
Proof.
  revert i detected log. induction n as [|n IH]; intros i detected log Hn.
  - rewrite codesFrom_nil by lia. cbn. rewrite !app_nil_r. reflexivity.
  - cbn [detectGlyphs_from]. destruct (decide (i <= 65535)) as [Hi|Hi].
    + unfold mbind, M_bind, ctx_measureText. cbn [fst snd to_string].
      rewrite IH by lia. rewrite (codesFrom_cons i Hi), filter_cons, !fmap_cons.
      fold (hasWidth ctx (fromCharCode i)).
      destruct (hasWidth ctx (fromCharCode i)) eqn:Hw.
      * rewrite decide_True by reflexivity.
        rewrite fmap_cons, <- !app_assoc. reflexivity.
      * rewrite decide_False by discriminate.
        rewrite <- !app_assoc. reflexivity.
    + rewrite codesFrom_nil by exact Hi. cbn. rewrite !app_nil_r. reflexivity.
Qed.

Lemma elem_of_codesFrom i c : c ∈ codesFrom i <-> i <= c <= 65535.
Proof.
  unfold codesFrom. rewrite list_elem_of_fmap. split.
  - intros (k & -> & Hk). apply elem_of_seq in Hk. lia.
  - intros Hc. exists (N.to_nat c). split; [lia|]. apply elem_of_seq. lia.
Qed.

Lemma codesFrom_sorted_from a n : StronglySorted N.lt (N.of_nat <$> seq a n).
Proof.
  revert a. induction n as [|n IH]; intros a; [constructor|].
  cbn [seq]. rewrite fmap_cons. constructor; [apply IH|].
  apply Forall_forall. intros c Hc. apply list_elem_of_fmap in Hc as (k & -> & Hk).
  apply elem_of_seq in Hk. lia.
Qed.

Lemma StronglySorted_filter {A} (R : relation A) (P : A -> Prop)
    `{!forall x, Decision (P x)} (l : list A) :
  StronglySorted R l -> StronglySorted R (filter P l).
Proof.
  induction 1 as [|x l Hsorted IH Hall]; [constructor|].
  rewrite filter_cons. destruct (decide (P x)); [|exact IH].
  constructor; [exact IH|].
  apply Forall_forall. intros y Hy. apply list_elem_of_filter in Hy as [_ Hy].
  rewrite Forall_forall in Hall. apply Hall, Hy.
Qed.

Lemma fromCharCode_unit c : c <= 65535 -> fromCharCode c = [c].
Proof. intros Hc. unfold fromCharCode. rewrite N.mod_small by lia. reflexivity. Qed.

Lemma probe_eq ctx fontSize c1 c2 c3 c4 c5 c6 log :
  let log' := log ++ [to_string c1] ++ [to_string c2] ++ [to_string c3]
                  ++ [to_string c4] ++ [to_string c5] ++ [to_string c6] in
  probe ctx fontSize c1 c2 c3 c4 c5 c6 log
  = (fun l => Metrics (js_div (rawAscent ctx c1) fontSize)
                      (js_div (rawDescent ctx c2) fontSize)
                      (js_div (rawAscent ctx c3) fontSize)
                      (js_div (rawDescent ctx c4) fontSize)
                      (js_div (rawAscent ctx c5) fontSize)
                      (js_div (rawAscent ctx c6) fontSize)
                      (detectLigatures ctx log').1 ctx l fontSize ∅,
     (detectLigatures ctx log').2).
Proof.
  intros log'. subst log'. unfold probe, mbind, M_bind, mret, M_ret.
  rewrite ?measureTop_eq, ?measureBottom_eq. cbn [fst snd].
  rewrite <- ?app_assoc. reflexivity.
Qed.

(** C7: the ligatures are the names among [ff], [fi], [fl], [st] whose
    character (code points 64256, 64257, 64258, 64262) the surface renders
    with a width greater than zero, in that order whichever are present:
    so [detectLigatures] computes on any context (measuring the four
    characters and nothing else), and so is the [ligatures] field of a
    constructed instance. *)
Theorem ligatures_in_declaration_order cx log a m :
  construct a = Ok m ->
  let names := [js "ff"; js "fi"; js "fl"; js "st"] in
  let char := fun lig => fromCharCode (code_of ligatureCodes lig) in
  char <$> names = [[64256]; [64257]; [64258]; [64262]]
  /\ (detectLigatures cx log).1
     = filter (fun lig => hasWidth cx (char lig) = true) names
  /\ (detectLigatures cx log).2 = log ++ (char <$> names)
  /\ ligatures m = filter (fun lig => hasWidth (ctx m) (char lig) = true) names
  /\ ligatures m `sublist_of` names.
Proof.
  intros Hm names char.
  assert (Hfield : ligatures m
                   = filter (fun lig => hasWidth (ctx m) (char lig) = true) names).
  { destruct (construct_ok a m Hm)
      as (merged & c1 & c2 & c3 & c4 & c5 & c6 & _ & _ & _ & _ & _ & _ & _ & ->).
    cbv zeta. rewrite probe_eq. cbn [fst snd ligatures ctx].
    unfold detectLigatures. rewrite detectLigatures_in_eq. reflexivity. }
  split; [reflexivity|].
  unfold detectLigatures. rewrite detectLigatures_in_eq. cbn [fst snd].
  repeat split; try reflexivity; [exact Hfield|].
  rewrite Hfield. apply sublist_filter.
Qed.

(** C8: [getGlyphs] returns the one-character strings of the code points up
    to 65535 that the surface renders with a width greater than zero, in
    ascending order; it measures the 65536 characters of that range, in
    order, and no other; on a surface that reports no width for any of them
    the result is empty. *)
Theorem getGlyphs_scans_the_16_bit_range m :
  exists glyphs : list N,
    (getGlyphs m).1 = (fun c => [c]) <$> glyphs
    /\ StronglySorted N.lt glyphs
    /\ (forall c, c ∈ glyphs <-> c <= 65535 /\ hasWidth (ctx m) [c] = true)
    /\ measured (getGlyphs m).2 = measured m ++ ((fun c => [c]) <$> codesFrom 0)
    /\ StronglySorted N.lt (codesFrom 0)
    /\ (forall c, c ∈ codesFrom 0 <-> c <= 65535)
    /\ ((forall c, c <= 65535 -> hasWidth (ctx m) [c] = false) ->
        (getGlyphs m).1 = []).
Proof.
  assert (Hunits : forall l : list N,
             Forall (fun c => c <= 65535) l -> fromCharCode <$> l = (fun c => [c]) <$> l).
  { intros l Hl. apply Forall_fmap_ext_1. eapply Forall_impl; [exact Hl|].
    intros c Hc. apply fromCharCode_unit, Hc. }
  assert (Hrange : Forall (fun c => c <= 65535) (codesFrom 0)).
  { apply Forall_forall. intros c Hc. apply elem_of_codesFrom in Hc. lia. }
  assert (Hrun : detectGlyphs (ctx m) (measured m)
                 = (fromCharCode <$> filter (fun c => hasWidth (ctx m) (fromCharCode c) = true)
                                            (codesFrom 0),
                    measured m ++ (fromCharCode <$> codesFrom 0))).
  { unfold detectGlyphs. rewrite detectGlyphs_from_eq by lia. reflexivity. }
  exists (filter (fun c => hasWidth (ctx m) (fromCharCode c) = true) (codesFrom 0)).
  unfold getGlyphs. rewrite Hrun. cbn [fst snd with_state measured].
  split.
  { apply Hunits, Forall_forall. intros c Hc.
    apply list_elem_of_filter in Hc as [_ Hc]. apply elem_of_codesFrom in Hc. lia. }
  split; [apply StronglySorted_filter, codesFrom_sorted_from|].
  split.
  { intros c. rewrite list_elem_of_filter, elem_of_codesFrom. split.
    - intros [Hw Hc]. rewrite fromCharCode_unit in Hw by lia. split; [lia | exact Hw].
    - intros [Hc Hw]. rewrite fromCharCode_unit by lia. split; [exact Hw | lia]. }
  split; [rewrite (Hunits _ Hrange); reflexivity|].
  split; [apply codesFrom_sorted_from|].
  split; [intros c; rewrite elem_of_codesFrom; lia|].
  intros Hnone.
  replace (filter (fun c => hasWidth (ctx m) (fromCharCode c) = true) (codesFrom 0))
    with (@nil N); [reflexivity|].
  symmetry. apply elem_of_nil_inv. intros c Hc.
  apply list_elem_of_filter in Hc as [Hw Hc]. apply elem_of_codesFrom in Hc.
  rewrite fromCharCode_unit in Hw by lia. rewrite Hnone in Hw by lia. discriminate.
Qed.

(** ** The width cache *)

Lemma widths_get_insert (w : gmap jstring value) k x :
  widths_get (<[k := x]> w) k = Plain x.
Proof. unfold widths_get. rewrite lookup_insert_eq. reflexivity. Qed.

Lemma measureWidth_cached string m :
  truthy (widths_get (widths m) (to_string string)) = true ->
  measureWidth string m = (widths_get (widths m) (to_string string), m).
Proof. intros Hcached. unfold measureWidth. rewrite Hcached. reflexivity. Qed.

Lemma measureWidth_fresh string m :
  truthy (widths_get (widths m) (to_string string)) = false ->
  measureWidth string m
  = (Plain (VNum (to_number (rawWidth (ctx m) string) / to_number (fontSize m))%float),
     with_state m (measured m ++ [to_string string])
       (<[to_string string
          := VNum (to_number (rawWidth (ctx m) string) / to_number (fontSize m))%float]>
          (widths m))).
Proof.
  intros Hfresh. unfold measureWidth. rewrite Hfresh.
  unfold ctx_measureText. cbn [fst snd]. rewrite widths_get_insert. reflexivity.
Qed.

(** Two calls of [measureWidth] with one string return the same value. When
    [widths[string]] is falsy at the first call, the surface is measured
    once and the width divided by [fontSize] is stored and returned; when it
    is truthy (a stored width, or a member the cache object inherits), it is
    returned and nothing is measured or stored. The second call returns the
    stored width without measuring when it is truthy, and measures again
    when it is falsy ([0] or [NaN]). *)
Lemma measureWidth_twice string m :
  let k := to_string string in
  let width := VNum (to_number (rawWidth (ctx m) string) / to_number (fontSize m))%float in
  let first := measureWidth string m in
  let second := measureWidth string first.2 in
  second.1 = first.1
  /\ (if truthy (widths_get (widths m) k)
      then first = (widths_get (widths m) k, m)
      else first.1 = Plain width
           /\ measured first.2 = measured m ++ [k]
           /\ widths first.2 = <[k := width]> (widths m))
  /\ (if truthy first.1
      then second.2 = first.2
      else measured second.2 = measured first.2 ++ [k]).
Proof.
  intros k width first second. subst first second k.
  destruct (truthy (widths_get (widths m) (to_string string))) eqn:Hcached.
  - rewrite (measureWidth_cached _ _ Hcached). cbn [fst snd].
    rewrite (measureWidth_cached _ _ Hcached). cbn [fst snd].
    rewrite Hcached. repeat split.
  - rewrite (measureWidth_fresh _ _ Hcached). fold width. cbn [fst snd truthy].
    set (m' := with_state m _ _).
    assert (Hget : widths_get (widths m') (to_string string) = Plain width)
      by apply widths_get_insert.
    destruct (to_boolean width) eqn:Hwidth.
    + rewrite (measureWidth_cached string m') by (rewrite Hget; exact Hwidth).
      rewrite Hget. repeat split.
    + rewrite (measureWidth_fresh string m') by (rewrite Hget; exact Hwidth).
      repeat split.
Qed.

(** ** The constructor as a transition system *)

Lemma lookup_last_task (l : list task) x : (l ++ [x]) !! length l = Some x.
Proof. apply list_lookup_middle. reflexivity. Qed.

Lemma insert_last_task (l : list task) x y : <[length l := y]> (l ++ [x]) = l ++ [y].
Proof.
  replace (length l) with (length l + 0)%nat at 1 by lia.
  rewrite insert_app_r. reflexivity.
Qed.

Lemma fontLoaded_first t p a id :
  tasks p !! t = Some (AwaitFont a id) ->
  fontLoaded t p = set_task p t (AwaitBlankFont a id).
Proof. intros Ht. unfold fontLoaded. rewrite Ht. reflexivity. Qed.

(** The end of a call, whatever the cache holds by then: the awaits are not
    followed by a second look at [instances]. *)
Lemma fontLoaded_second t p a id :
  tasks p !! t = Some (AwaitBlankFont a id) ->
  fontLoaded t p
  = match construct a with
    | Ok m => set_task (cache p id m) t (Fulfilled (length (constructed p)))
    | Throw e => set_task p t (Rejected e)
    end.
Proof. intros Ht. unfold fontLoaded. rewrite Ht. reflexivity. Qed.

Lemma fontLoaded_settled t p x :
  tasks p !! t = Some x ->
  (forall a id, x <> AwaitFont a id) -> (forall a id, x <> AwaitBlankFont a id) ->
  fontLoaded t p = p.
Proof.
  intros Ht H1 H2. unfold fontLoaded. rewrite Ht.
  destruct x; [destruct (H1 a id eq_refl) | destruct (H2 a id eq_refl) | |];
    reflexivity.
Qed.

(** A call that finds its key cached, followed to its end: it is settled at
    once, and the two reports change nothing. *)
Lemma run_hit a p address :
  instances p !! getId (with_defaults a) = Some address ->
  run p [Call a; FontLoaded (length (tasks p)); FontLoaded (length (tasks p))]
  = spawn p (Fulfilled address).
Proof.
  intros Hhit. rewrite !run_cons. cbn [run foldl step].
  rewrite (call_hit _ _ _ Hhit).
  assert (Hlast : tasks (spawn p (Fulfilled address)) !! length (tasks p)
                  = Some (Fulfilled address)) by apply lookup_last_task.
  rewrite !(fontLoaded_settled _ _ _ Hlast); (reflexivity || discriminate).
Qed.

(** A call that misses the cache, followed to its end with both fonts
    loading and no other event in between. *)
Lemma run_miss a p :
  instances p !! getId (with_defaults a) = None ->
  let a' := with_defaults a in
  let id := getId a' in
  let registry := insertedBlankFonts p ++ [js_add (fontWeight a') (fontStyle a')] in
  let rules := document_head p
    ++ [StyleElement (js "text/css") (blankFontCss (fontWeight a') (fontStyle a'))] in
  run p [Call a; FontLoaded (length (tasks p)); FontLoaded (length (tasks p))]
  = match construct a' with
    | Ok m => Page (<[id := length (constructed p)]> (instances p)) registry rules
                   (constructed p ++ [(id, m)])
                   (tasks p ++ [Fulfilled (length (constructed p))])
    | Throw e => Page (instances p) registry rules (constructed p)
                      (tasks p ++ [Rejected e])
    end.
Proof.
  intros Hmiss a' id registry rules. rewrite !run_cons. cbn [run foldl step].
  rewrite (call_miss _ _ Hmiss). fold a' id registry rules.
  match goal with |- context [fontLoaded _ (fontLoaded _ ?q)] => set (q0 := q) end.
  assert (H0 : tasks q0 !! length (tasks p) = Some (AwaitFont a' id))
    by apply lookup_last_task.
  rewrite (fontLoaded_first _ _ _ _ H0).
  unfold set_task, q0. cbn [instances insertedBlankFonts document_head constructed tasks].
  rewrite insert_last_task.
  match goal with |- context [fontLoaded _ ?q] => set (q1 := q) end.
  assert (H1 : tasks q1 !! length (tasks p) = Some (AwaitBlankFont a' id))
    by apply lookup_last_task.
  rewrite (fontLoaded_second _ _ _ _ H1).
  destruct (construct a') as [m|e]; unfold set_task, cache, q1;
    cbn [instances insertedBlankFonts document_head constructed tasks];
    rewrite insert_last_task; reflexivity.
Qed.

(** When a call followed to its end is fulfilled, its key is cached with
    the address it was fulfilled with, and at most one object was built. *)
Lemma first_call_resolved a p address :
  let n := length (tasks p) in
  let id := getId (with_defaults a) in
  let p1 := run p [Call a; FontLoaded n; FontLoaded n] in
  tasks p1 !! n = Some (Fulfilled address) ->
  instances p1 !! id = Some address
  /\ length (tasks p1) = S n
  /\ match instances p !! id with
     | Some _ => constructed p1 = constructed p
     | None => exists m, construct (with_defaults a) = Ok m
                         /\ constructed p1 = constructed p ++ [(id, m)]
                         /\ address = length (constructed p)
     end.
Proof.
  intros n id p1. subst p1 n id.
  destruct (instances p !! getId (with_defaults a)) as [address0|] eqn:Hcache.
  - rewrite (run_hit _ _ _ Hcache). unfold spawn. cbn [tasks instances constructed].
    rewrite lookup_last_task, length_app. cbn [length].
    intros [= ->]. repeat split; [assumption | lia].
  - rewrite (run_miss _ _ Hcache).
    destruct (construct (with_defaults a)) as [m|e];
      cbn [tasks instances constructed];
      rewrite lookup_last_task, length_app; cbn [length]; intros [= <-].
    repeat split; [apply lookup_insert_eq | lia |].
    exists m. repeat split.
Qed.

(** C6: when the wait for the requested font or the wait for the backup
    face fails, the task is rejected with that very error, and the cache and
    the objects built are as before; a later call for an identity that has
    no cache entry starts a construction again. *)
Theorem failed_wait_writes_no_cache_entry p t a id e :
  tasks p !! t = Some (AwaitFont a id) \/ tasks p !! t = Some (AwaitBlankFont a id) ->
  let p' := step p (FontFailed t e) in
  tasks p' !! t = Some (Rejected e)
  /\ instances p' = instances p
  /\ constructed p' = constructed p
  /\ (forall retry,
         instances p !! getId (with_defaults retry) = None ->
         tasks (step p' (Call retry)) !! length (tasks p')
         = Some (AwaitFont (with_defaults retry) (getId (with_defaults retry)))).
Proof.
  intros Hwait p'.
  assert (Hp' : p' = set_task p t (Rejected e)).
  { subst p'. cbn [step]. unfold fontFailed. destruct Hwait as [-> | ->]; reflexivity. }
  assert (Hlt : (t < length (tasks p))%nat).
  { destruct Hwait as [Ht | Ht]; apply lookup_lt_Some in Ht; exact Ht. }
  rewrite Hp'. unfold set_task. cbn [tasks instances constructed].
  repeat split; [apply list_lookup_insert_eq, Hlt|].
  intros retry Hmiss. cbn [step]. rewrite call_miss by exact Hmiss.
  cbn [tasks]. apply lookup_last_task.
Qed.

(** C10: with [options: null] the default [{}] is not taken (it is for an
    omitted, [undefined], [options]); a call that misses the cache goes
    through both waits, then reading [options.chars] throws a [TypeError]:
    the call is rejected, nothing is built and nothing is cached. *)
Theorem null_options_throw_after_the_waits a p :
  options a = VNull ->
  instances p !! getId (with_defaults a) = None ->
  let n := length (tasks p) in
  let a' := with_defaults a in
  options a' = VNull
  /\ mergedOptions (options a') = Throw TypeError
  /\ tasks (run p [Call a]) !! n = Some (AwaitFont a' (getId a'))
  /\ tasks (run p [Call a; FontLoaded n]) !! n = Some (AwaitBlankFont a' (getId a'))
  /\ tasks (run p [Call a; FontLoaded n; FontLoaded n]) !! n = Some (Rejected TypeError)
  /\ instances (run p [Call a; FontLoaded n; FontLoaded n]) = instances p
  /\ constructed (run p [Call a; FontLoaded n; FontLoaded n]) = constructed p
  /\ (forall omitted, options omitted = VUndef ->
         options (with_defaults omitted) = VObj []
         /\ mergedOptions (VObj []) = Ok (own_enumerable defaultOptions)).
Proof.
  intros Hnull Hmiss n a'. subst n.
  assert (Hopt : options a' = VNull) by (subst a'; cbn; rewrite Hnull; reflexivity).
  assert (Hthrow : construct a' = Throw TypeError)
    by (unfold construct; rewrite Hopt; reflexivity).
  split; [exact Hopt|]. split; [rewrite Hopt; reflexivity|].
  split.
  { cbn [run foldl step]. rewrite (call_miss _ _ Hmiss). apply lookup_last_task. }
  split.
  { cbn [run foldl step]. rewrite (call_miss _ _ Hmiss).
    erewrite fontLoaded_first by apply lookup_last_task.
    unfold set_task. cbn [tasks]. rewrite insert_last_task. apply lookup_last_task. }
  rewrite (run_miss _ _ Hmiss). fold a'. rewrite Hthrow.
  cbn [tasks instances constructed].
  split; [apply lookup_last_task|]. split; [reflexivity|]. split; [reflexivity|].
  intros omitted Homitted. split; [cbn; rewrite Homitted; reflexivity|].
  vm_compute. reflexivity.
Qed.

End Properties.

(** * Runs

    The scenarios of the theorems above on the concrete platforms, and the
    runs on which a claim of the specification fails as it is stated. *)

Section Runs.


(** C4 fails as stated: on a canvas whose [TextMetrics] has no bounding-box
    attributes, the raw measurement of the cap-height anchor 'S' is
    [undefined], and the reported [capHeight] is [NaN], not the raw value. *)
Lemma undefined_anchor_is_divided :
  exists m,
    construct (H := widthOnly) (with_defaults helvetica) = Ok m
    /\ anchorChar (with_defaults helvetica) (js "capHeight") = Ok (VStr (js "S"))
    /\ rawAscent (H := widthOnly) (ctx m) (VStr (js "S")) = VUndef
    /\ capHeight m = VNum PrimFloat.nan
    /\ capHeight m <> VUndef.
Proof.
  eexists. split; [vm_compute; reflexivity|].
  vm_compute. repeat split. discriminate.
Qed.

Lemma anchors_divided_witness :
  exists m,
    construct (H := monospace) (with_defaults helvetica) = Ok m
    /\ read (metrics_measureText (H := monospace) (VStr (js "Xx")) m).1 (js "width")
       = VNum 1%float
    /\ read (metrics_measureText (H := monospace) (VStr []) m).1 (js "width")
       = VNum 0%float.
Proof.
  eexists. split; [vm_compute; reflexivity|].
  match goal with |- context [metrics_measureText _ ?m] =>
    assert (Hm : construct (H := monospace) (with_defaults helvetica) = Ok m)
      by (vm_compute; reflexivity);
    rewrite (proj2 (anchors_divided_measureText_normalized (H := monospace)
                      (with_defaults helvetica) m (VStr (js "Xx")) (js "width") Hm));
    rewrite (proj2 (anchors_divided_measureText_normalized (H := monospace)
                      (with_defaults helvetica) m (VStr []) (js "width") Hm))
  end.
  vm_compute. split; reflexivity.
Defined.

(** C5 (the code against the claim): in a font without the character 'X'
    its width is zero; the first [measureWidth('X')] measures the surface
    and stores [0], and because the stored [0] is falsy the second call
    measures the surface again (both return [0]). And for a string that
    names a member of [Object.prototype], [measureWidth('constructor')]
    measures and stores nothing and returns that member, on any font. *)
Theorem zero_width_is_measured_again :
  exists m,
    construct (H := blank) (with_defaults helvetica) = Ok m
    /\ (let first := measureWidth (H := blank) (VStr (js "X")) m in
        let second := measureWidth (H := blank) (VStr (js "X")) first.2 in
        first.1 = Plain (VNum 0%float)
        /\ second.1 = Plain (VNum 0%float)
        /\ measured first.2 = measured m ++ [js "X"]
        /\ measured second.2 = measured m ++ [js "X"; js "X"])
    /\ measureWidth (H := blank) (VStr (js "constructor")) m
       = (Builtin (js "constructor"), m).
Proof.
  eexists. split; [vm_compute; reflexivity|].
  vm_compute. repeat split.
Qed.

Lemma failed_wait_witness :
  let p := run (H := monospace) emptyPage [Call helvetica] in
  tasks p !! 0%nat
  = Some (AwaitFont (with_defaults helvetica) (js "Helvetica400normal{}"))
  /\ tasks (step (H := monospace) p (FontFailed 0 loadTimeout)) !! 0%nat
     = Some (Rejected loadTimeout)
  /\ instances (step (H := monospace) p (FontFailed 0 loadTimeout)) = instances p.
Proof.
  assert (Hwait : tasks (run (H := monospace) emptyPage [Call helvetica]) !! 0%nat
                  = Some (AwaitFont (with_defaults helvetica)
                            (js "Helvetica400normal{}")))
    by (vm_compute; reflexivity).
  destruct (failed_wait_writes_no_cache_entry (H := monospace) _ _ _ _ loadTimeout
              (or_introl Hwait)) as (Hrejected & Hcache & _).
  exact (conj Hwait (conj Hrejected Hcache)).
Defined.

Lemma ligatures_witness :
  exists m,
    construct (H := monospace) (with_defaults helvetica) = Ok m
    /\ ligatures m `sublist_of` [js "ff"; js "fi"; js "fl"; js "st"].
Proof.
  eexists. split; [vm_compute; reflexivity|].
  match goal with |- ligatures ?m `sublist_of` _ =>
    assert (Hm : construct (H := monospace) (with_defaults helvetica) = Ok m)
      by (vm_compute; reflexivity);
    destruct (ligatures_in_declaration_order (H := monospace) (ctx m) []
                (with_defaults helvetica) m Hm) as (_ & _ & _ & _ & Hsub)
  end.
  exact Hsub.
Defined.

Lemma getGlyphs_witness :
  exists m,
    construct (H := blank) (with_defaults helvetica) = Ok m
    /\ (getGlyphs (H := blank) m).1 = [].
Proof.
  eexists. split; [vm_compute; reflexivity|].
  match goal with |- (getGlyphs ?m).1 = [] =>
    destruct (getGlyphs_scans_the_16_bit_range (H := blank) m)
      as (glyphs & _ & _ & _ & _ & _ & _ & Hnone)
  end.
  apply Hnone. intros c _. reflexivity.
Defined.

Lemma null_options_witness :
  options usageExample = VNull
  /\ instances (emptyPage) !! getId (H := monospace) (with_defaults usageExample) = None
  /\ tasks (run (H := monospace) emptyPage [Call usageExample; FontLoaded 0; FontLoaded 0])
       !! 0%nat
     = Some (Rejected TypeError).
Proof.
  assert (Hmiss : instances emptyPage
                  !! getId (H := monospace) (with_defaults usageExample) = None)
    by apply lookup_empty.
  destruct (null_options_throw_after_the_waits (H := monospace) usageExample emptyPage
              eq_refl Hmiss) as (_ & _ & _ & _ & Hrejected & _).
  exact (conj eq_refl (conj Hmiss Hrejected)).
Defined.

End Runs.

(** * Further properties of the engine *)

Section Further.

Context `{Platform}.

(** ** One event *)

Lemma get_prop_throw v k e :
  get_prop v k = Throw e -> e = TypeError /\ (v = VUndef \/ v = VNull).
Proof.
  destruct v; unfold get_prop; try discriminate;
    try (intros [= <-]; split; [reflexivity | auto]).
  case_decide; discriminate.
Qed.


Lemma mergedOptions_throw o e :
  mergedOptions o = Throw e -> e = TypeError /\ (o = VUndef \/ o = VNull).
Proof.
  unfold mergedOptions. cbn [get_prop defaultOptions mbind result_bind].
  destruct (get_prop o (js "chars")) eqn:Hchars; [discriminate|].
  cbn [mbind result_bind]. intros [= <-]. eapply get_prop_throw, Hchars.
Qed.

Lemma construct_throw a e : construct a = Throw e -> e = TypeError.
Proof.
  unfold construct.
  destruct (mergedOptions (options a)) as [merged|e0] eqn:Hmerged;
    cbn [mbind result_bind].
  - repeat match goal with
    | |- context [get_prop ?c ?k] =>
        let Hk := fresh "Hk" in
        destruct (get_prop c k) eqn:Hk; cbn [mbind result_bind];
        [| intros [= <-]; eapply get_prop_throw, Hk]
    end.
    discriminate.
  - intros [= <-]. eapply mergedOptions_throw, Hmerged.
Qed.

(** What one event does to the page, case by case. *)
Lemma step_shape p ev :
  step p ev = p
  \/ (exists a0 address,
         ev = Call a0
         /\ instances p !! getId (with_defaults a0) = Some address
         /\ step p ev = spawn p (Fulfilled address))
  \/ (exists a0 id rule,
         ev = Call a0
         /\ instances p !! getId (with_defaults a0) = None
         /\ step p ev
            = Page (instances p) (insertedBlankFonts p ++ [id])
                   (document_head p ++ [rule]) (constructed p)
                   (tasks p ++ [AwaitFont (with_defaults a0)
                                  (getId (with_defaults a0))]))
  \/ (exists t a id,
         ev = FontLoaded t
         /\ tasks p !! t = Some (AwaitFont a id)
         /\ step p ev = set_task p t (AwaitBlankFont a id))
  \/ (exists t a id m,
         ev = FontLoaded t
         /\ tasks p !! t = Some (AwaitBlankFont a id)
         /\ construct a = Ok m
         /\ step p ev
            = set_task (cache p id m) t (Fulfilled (length (constructed p))))
  \/ (exists t a id,
         ev = FontLoaded t
         /\ tasks p !! t = Some (AwaitBlankFont a id)
         /\ construct a = Throw TypeError
         /\ step p ev = set_task p t (Rejected TypeError))
  \/ (exists t e x,
         ev = FontFailed t e
         /\ tasks p !! t = Some x
         /\ awaiting x = true
         /\ step p ev = set_task p t (Rejected e)).
Proof.
  destruct ev as [a0 | t | t e]; cbn [step].
  - destruct (instances p !! getId (with_defaults a0)) as [address|] eqn:Hcache.
    + right. left. exists a0, address. rewrite (call_hit _ _ _ Hcache). auto.
    + right. right. left. rewrite (call_miss _ _ Hcache). eauto 10.
  - unfold fontLoaded. destruct (tasks p !! t) as [[a id | a id | address | e]|] eqn:Ht;
      [| | left; reflexivity | left; reflexivity | left; reflexivity].
    + do 3 right. left. eauto 10.
    + destruct (construct a) as [m|e] eqn:Hm.
      * do 4 right. left. eauto 10.
      * pose proof (construct_throw _ _ Hm) as ->. do 5 right. left. eauto 10.
  - unfold fontFailed. destruct (tasks p !! t) as [[a id | a id | address | e0]|] eqn:Ht;
      [| | left; reflexivity | left; reflexivity | left; reflexivity];
      do 6 right; eauto 10.
Qed.

(** ** What never shrinks *)

Lemma step_grows p ev :
  dom (instances p) ⊆@{gset jstring} dom (instances (step p ev))
  /\ constructed p `prefix_of` constructed (step p ev)
  /\ document_head p `prefix_of` document_head (step p ev)
  /\ insertedBlankFonts p `prefix_of` insertedBlankFonts (step p ev)
  /\ (length (tasks p) <= length (tasks (step p ev)))%nat
  /\ (forall t x, tasks p !! t = Some x -> awaiting x = false ->
                  tasks (step p ev) !! t = Some x).
Proof.
  assert (Hother : forall (l : list task) t t' x y z,
             l !! t = Some x -> awaiting x = false ->
             l !! t' = Some y -> awaiting y = true ->
             <[t' := z]> l !! t = Some x).
  { intros l t t' x y z Ht Hx Ht' Hy. rewrite list_lookup_insert_ne; [exact Ht|].
    intros ->. rewrite Ht in Ht'. injection Ht' as ->. congruence. }
  destruct (step_shape p ev)
    as [-> | [(a0 & address & _ & _ & ->) | [(a0 & id & rule & _ & _ & ->)
       | [(t & a & id & _ & Ht & ->) | [(t & a & id & m & _ & Ht & _ & ->)
       | [(t & a & id & _ & Ht & _ & ->) | (t & e & x & _ & Ht & Hx & ->)]]]]]];
    unfold spawn, set_task, cache;
    cbn [instances constructed document_head insertedBlankFonts tasks];
    rewrite ?length_app, ?length_insert;
    (split; [first [reflexivity | apply dom_insert_subseteq]|]);
    (split; [first [reflexivity | apply prefix_app_r; reflexivity]|]);
    (split; [first [reflexivity | apply prefix_app_r; reflexivity]|]);
    (split; [first [reflexivity | apply prefix_app_r; reflexivity]|]);
    (split; [lia|]);
    intros t0 x0 Ht0 Hx0;
    first [ exact Ht0
          | rewrite lookup_app_l by (eapply lookup_lt_Some, Ht0); exact Ht0
          | eapply Hother; eauto; reflexivity ].
Qed.

(** X1: along any events, from any page, nothing is taken back. The keys of
    the cache, the Metrics objects built, the style rules and the registry
    only grow (an entry of the cache is never evicted, though a later
    construction for its key may replace its instance), and a call that is
    settled, fulfilled or rejected, stays settled with the same outcome. *)
Theorem page_only_grows p evs :
  dom (instances p) ⊆@{gset jstring} dom (instances (run p evs))
  /\ constructed p `prefix_of` constructed (run p evs)
  /\ document_head p `prefix_of` document_head (run p evs)
  /\ insertedBlankFonts p `prefix_of` insertedBlankFonts (run p evs)
  /\ (length (tasks p) <= length (tasks (run p evs)))%nat
  /\ (forall t x, tasks p !! t = Some x -> awaiting x = false ->
                  tasks (run p evs) !! t = Some x).
Proof.
  revert p. induction evs as [|ev evs IH]; intros p.
  - cbn [run foldl].
    refine (conj _ (conj _ (conj _ (conj _ (conj _ _))))); try reflexivity.
    intros t x Hx _. exact Hx.
  - rewrite run_cons.
    destruct (step_grows p ev) as (Hi & Hc & Hh & Hr & Hl & Ht).
    destruct (IH (step p ev)) as (Hi' & Hc' & Hh' & Hr' & Hl' & Ht').
    refine (conj _ (conj _ (conj _ (conj _ (conj _ _)))));
      try (etrans; eassumption).
    intros t x Hx Hsettled. apply Ht', Hsettled. apply Ht; assumption.
Qed.

(** ** What the cache holds *)

Lemma page_invariant_spawn cs p a0 x :
  page_invariant cs p ->
  match x with
  | AwaitFont a id | AwaitBlankFont a id => a = with_defaults a0 /\ id = getId a
  | Fulfilled address =>
      exists m, constructed p !! address = Some (getId (with_defaults a0), m)
  | Rejected _ => True
  end ->
  page_invariant (cs ++ [a0]) (spawn p x).
Proof.
  intros (Hlen & Htasks & Hcache & Hbuilt) Hx. unfold page_invariant, spawn.
  cbn [tasks constructed instances]. rewrite !length_app, Hlen.
  split; [reflexivity|]. split; [|split; [exact Hcache|]].
  - intros k a1 y Hk Hy. destruct (decide (k < length cs)%nat) as [Hlt|Hge].
    + rewrite lookup_app_l in Hk by exact Hlt.
      rewrite lookup_app_l in Hy by (rewrite Hlen; exact Hlt).
      exact (Htasks k a1 y Hk Hy).
    + assert (k = length cs) as ->.
      { apply lookup_lt_Some in Hk. rewrite length_app in Hk. cbn in Hk. lia. }
      rewrite list_lookup_middle in Hk by reflexivity.
      rewrite list_lookup_middle in Hy by (symmetry; exact Hlen).
      injection Hk as <-. injection Hy as <-. exact Hx.
  - intros address id m Hm. destruct (Hbuilt address id m Hm) as (a1 & Hin & Hrest).
    exists a1. split; [apply elem_of_app; left; exact Hin | exact Hrest].
Qed.

Lemma page_invariant_set_task cs p t a0 x :
  page_invariant cs p ->
  cs !! t = Some a0 ->
  match x with
  | AwaitFont a id | AwaitBlankFont a id => a = with_defaults a0 /\ id = getId a
  | Fulfilled address =>
      exists m, constructed p !! address = Some (getId (with_defaults a0), m)
  | Rejected _ => True
  end ->
  page_invariant cs (set_task p t x).
Proof.
  intros (Hlen & Htasks & Hcache & Hbuilt) Ht Hx. unfold page_invariant, set_task.
  cbn [tasks constructed instances]. rewrite length_insert.
  split; [exact Hlen|]. split; [|split; assumption].
  intros k a1 y Hk Hy. destruct (decide (t = k)) as [<-|Hne].
  - rewrite list_lookup_insert_eq in Hy
      by (rewrite Hlen; eapply lookup_lt_Some, Ht).
    injection Hy as <-. rewrite Ht in Hk. injection Hk as <-. exact Hx.
  - rewrite list_lookup_insert_ne in Hy by exact Hne.
    exact (Htasks k a1 y Hk Hy).
Qed.

Lemma page_invariant_cache cs p a0 m :
  page_invariant cs p ->
  a0 ∈ cs ->
  construct (with_defaults a0) = Ok m ->
  page_invariant cs (cache p (getId (with_defaults a0)) m)
  /\ constructed (cache p (getId (with_defaults a0)) m) !! length (constructed p)
     = Some (getId (with_defaults a0), m).
Proof.
  intros (Hlen & Htasks & Hcache & Hbuilt) Hin Hm. unfold page_invariant, cache.
  cbn [tasks constructed instances].
  assert (Hkeep : forall address entry,
             constructed p !! address = Some entry ->
             (constructed p ++ [(getId (with_defaults a0), m)]) !! address = Some entry).
  { intros address entry Hentry. rewrite lookup_app_l; [exact Hentry|].
    eapply lookup_lt_Some, Hentry. }
  split; [|apply list_lookup_middle; reflexivity].
  split; [exact Hlen|]. split; [|split].
  - intros k a1 y Hk Hy. specialize (Htasks k a1 y Hk Hy).
    destruct y; try exact Htasks.
    destruct Htasks as (m' & Hm'). exists m'. apply Hkeep, Hm'.
  - intros id address Hid. destruct (decide (getId (with_defaults a0) = id)) as [<-|Hne].
    + rewrite lookup_insert_eq in Hid. injection Hid as <-.
      exists m. apply list_lookup_middle. reflexivity.
    + rewrite lookup_insert_ne in Hid by exact Hne.
      destruct (Hcache id address Hid) as (m' & Hm'). exists m'. apply Hkeep, Hm'.
  - intros address id m' Hentry.
    destruct (decide (address < length (constructed p))%nat) as [Hlt|Hge].
    + rewrite lookup_app_l in Hentry by exact Hlt. exact (Hbuilt address id m' Hentry).
    + assert (address = length (constructed p)) as ->.
      { apply lookup_lt_Some in Hentry. rewrite length_app in Hentry.
        cbn in Hentry. lia. }
      rewrite list_lookup_middle in Hentry by reflexivity.
      injection Hentry as <- <-. exists a0. auto.
Qed.

Lemma page_invariant_step cs p ev :
  page_invariant cs p -> page_invariant (cs ++ calls [ev]) (step p ev).
Proof.
  intros Hinv. pose proof Hinv as (Hlen & Htasks & Hcache & Hbuilt).
  assert (Hcall : forall t x, tasks p !! t = Some x -> exists a0, cs !! t = Some a0).
  { intros t x Ht. apply lookup_lt_is_Some. rewrite <- Hlen.
    eapply lookup_lt_Some, Ht. }
  destruct ev as [a0 | t | t e]; cbn [calls omap list_omap];
    rewrite ?app_nil_r.
  - cbn [step]. unfold call.
    destruct (instances p !! getId (with_defaults a0)) as [address|] eqn:Hkey.
    + apply page_invariant_spawn; [exact Hinv | exact (Hcache _ _ Hkey)].
    + rewrite insertblankFont_eq.
      apply (page_invariant_spawn cs
               (Page (instances p) _ _ (constructed p) (tasks p)) a0
               (AwaitFont (with_defaults a0) (getId (with_defaults a0))));
        [exact Hinv | auto].
  - cbn [step]. unfold fontLoaded.
    destruct (tasks p !! t) as [[a id | a id | address | e]|] eqn:Ht;
      try exact Hinv; destruct (Hcall _ _ Ht) as (a0 & Ha0);
      pose proof (Htasks t a0 _ Ha0 Ht) as (-> & ->).
    + apply (page_invariant_set_task cs p t a0); auto.
    + destruct (construct (with_defaults a0)) as [m|e] eqn:Hm.
      * destruct (page_invariant_cache cs p a0 m Hinv) as (Hinv' & Hnew);
          [eapply list_elem_of_lookup_2, Ha0 | exact Hm |].
        apply (page_invariant_set_task cs _ t a0); [exact Hinv' | exact Ha0 |].
        exists m. exact Hnew.
      * apply (page_invariant_set_task cs p t a0); auto.
  - cbn [step]. unfold fontFailed.
    destruct (tasks p !! t) as [[a id | a id | address | e0]|] eqn:Ht;
      try exact Hinv; destruct (Hcall _ _ Ht) as (a0 & Ha0);
      apply (page_invariant_set_task cs p t a0); auto.
Qed.

Lemma page_invariant_run evs : page_invariant (calls evs) (run emptyPage evs).
Proof.
  induction evs as [|ev evs IH] using rev_ind.
  - repeat split; intros *; intros Hnone; inversion Hnone.
  - rewrite run_app. unfold calls. rewrite omap_app.
    apply (page_invariant_step _ _ ev), IH.
Qed.

(** X2: on a page that started empty, after any events in any order, there
    are as many tasks as calls; a call that is fulfilled holds the address
    of a Metrics object that was built for the key of its own settings (with
    the defaults filled in); an entry of the cache holds the address of an
    object that was built for its key; and every object built is what
    [construct] returns for the settings of one of the calls made. *)
Theorem fulfilled_calls_hold_instances_of_their_key evs :
  let p := run emptyPage evs in
  length (tasks p) = length (calls evs)
  /\ (forall k a0 address,
         calls evs !! k = Some a0 ->
         tasks p !! k = Some (Fulfilled address) ->
         exists m, constructed p !! address = Some (getId (with_defaults a0), m))
  /\ (forall id address,
         instances p !! id = Some address ->
         exists m, constructed p !! address = Some (id, m))
  /\ (forall address id m,
         constructed p !! address = Some (id, m) ->
         exists a0, a0 ∈ calls evs /\ id = getId (with_defaults a0)
                    /\ construct (with_defaults a0) = Ok m).
Proof.
  intros p. destruct (page_invariant_run evs) as (Hlen & Htasks & Hcache & Hbuilt).
  refine (conj Hlen (conj _ (conj Hcache Hbuilt))).
  intros k a0 address Hk Ht. exact (Htasks k a0 _ Hk Ht).
Qed.

(** ** The cache over time *)





(** C9: the key is the four texts one after the other, with nothing in
    between, so it does not tell where the family ends and the weight
    starts: 'Arial4' with weight '00' and 'Arial' with weight '400' (any
    style and options) have one key. On any page, a call for the second is
    fulfilled at once with whatever the cache holds under the key of the
    first. Once the first is constructed, the cache holds its instance under
    the key of the second, and a call for the second is fulfilled with that
    instance, building and caching nothing: it is the object built from the
    settings of the first when the first missed the cache, and on a page
    that started empty an object built for that key lies at its address. *)
Theorem getId_is_not_injective style opts p :
  let arial4 := Settings (VStr (js "Arial4")) (VStr (js "00")) style opts in
  let arial := Settings (VStr (js "Arial")) (VStr (js "400")) style opts in
  let n := length (tasks p) in
  let p1 := run p [Call arial4; FontLoaded n; FontLoaded n] in
  (forall a, getId a = to_string (fontFamily a) ++ to_string (fontWeight a)
                       ++ to_string (fontStyle a) ++ JSON_stringify (options a))
  /\ fontFamily (with_defaults arial4) <> fontFamily (with_defaults arial)
  /\ fontWeight (with_defaults arial4) <> fontWeight (with_defaults arial)
  /\ getId (with_defaults arial4) = getId (with_defaults arial)
  /\ (forall q address,
         instances q !! getId (with_defaults arial4) = Some address ->
         step q (Call arial) = spawn q (Fulfilled address))
  /\ (forall address,
         tasks p1 !! n = Some (Fulfilled address) ->
         instances p1 !! getId (with_defaults arial) = Some address
         /\ tasks (step p1 (Call arial)) !! S n = Some (Fulfilled address)
         /\ constructed (step p1 (Call arial)) = constructed p1
         /\ instances (step p1 (Call arial)) = instances p1
         /\ (instances p !! getId (with_defaults arial4) = None ->
             exists m,
               construct (with_defaults arial4) = Ok m
               /\ address = length (constructed p)
               /\ constructed (step p1 (Call arial)) !! address
                  = Some (getId (with_defaults arial), m))
         /\ (forall evs0,
               p = run emptyPage evs0 ->
               exists m,
                 constructed (step p1 (Call arial)) !! address
                 = Some (getId (with_defaults arial), m))).
Proof.
  intros arial4 arial n p1.
  assert (Hsame : getId (with_defaults arial4) = getId (with_defaults arial))
    by reflexivity.
  split; [reflexivity|]. split; [discriminate|]. split; [discriminate|].
  split; [exact Hsame|]. split.
  { intros q address Hq. cbn [step]. apply call_hit. rewrite <- Hsame. exact Hq. }
  intros address Hfulfilled.
  destruct (first_call_resolved arial4 p address Hfulfilled) as (Hcached & Hlen & Hbuilt).
  fold n p1 in Hcached, Hlen, Hbuilt. rewrite Hsame in Hcached.
  cbn [step]. rewrite (call_hit _ _ _ Hcached). unfold spawn.
  cbn [tasks constructed instances]. rewrite <- Hlen.
  split; [exact Hcached|]. split; [apply lookup_last_task|].
  split; [reflexivity|]. split; [reflexivity|]. split.
  - intros Hmiss. rewrite Hmiss in Hbuilt. destruct Hbuilt as (m & Hm & Hp1 & Haddress).
    exists m. split; [exact Hm|]. split; [exact Haddress|].
    rewrite Hp1, Haddress, <- Hsame. apply list_lookup_middle. reflexivity.
  - intros evs0 Hp.
    destruct (page_invariant_run (evs0 ++ [Call arial4; FontLoaded n; FontLoaded n]))
      as (_ & _ & Hobjects & _).
    rewrite run_app, <- Hp in Hobjects. exact (Hobjects _ _ Hcached).
Qed.

(** ** Counting *)

Lemma run_invariant (I : page -> Prop) :
  (forall p ev, I p -> I (step p ev)) ->
  forall p evs, I p -> I (run p evs).
Proof.
  intros Hstep p evs. revert p. induction evs as [|ev evs IH]; intros p Hp.
  - exact Hp.
  - rewrite run_cons. apply IH, Hstep, Hp.
Qed.

Lemma pending_snoc (l : list task) x :
  pending (l ++ [x]) = (pending l + if awaiting x then 1 else 0)%nat.
Proof.
  unfold pending. rewrite filter_app, length_app, filter_cons, filter_nil.
  destruct (awaiting x); [rewrite decide_True by reflexivity
                         | rewrite decide_False by discriminate]; reflexivity.
Qed.

Lemma pending_insert (l : list task) t x y :
  l !! t = Some x ->
  (pending (<[t := y]> l) + (if awaiting x then 1 else 0)
   = pending l + (if awaiting y then 1 else 0))%nat.
Proof.
  unfold pending. revert t. induction l as [|z l IH]; intros t Ht; [inversion Ht|].
  destruct t as [|t].
  - injection Ht as ->. cbn [insert list_insert]. rewrite !filter_cons.
    destruct (awaiting x), (awaiting y); repeat case_decide;
      try discriminate; try congruence; cbn [length]; lia.
  - change (<[S t := y]> (z :: l)) with (z :: <[t := y]> l).
    rewrite !filter_cons. specialize (IH t Ht).
    case_decide; cbn [length]; lia.
Qed.

(** X3: on a page that started empty, after any events, the style rules
    and the registry entries are equally many, one for every call that
    missed the cache; every Metrics object built and every call still
    waiting accounts for a rule of its own, so the probe measurements never
    ran more often than the backup face was declared, nor more often than
    the factory was called. *)
Theorem constructions_bounded_by_calls evs :
  let p := run emptyPage evs in
  length (document_head p) = length (insertedBlankFonts p)
  /\ (length (constructed p) + pending (tasks p) <= length (document_head p))%nat
  /\ (length (document_head p) <= length (tasks p))%nat
  /\ (length (constructed p) <= length (calls evs))%nat.
Proof.
  intros p.
  assert (Hinv : length (document_head p) = length (insertedBlankFonts p)
                 /\ (length (constructed p) + pending (tasks p)
                     <= length (document_head p))%nat
                 /\ (length (document_head p) <= length (tasks p))%nat).
  { subst p. apply run_invariant; [|cbn; lia].
    clear evs. intros p ev (Hrules & Hbuilt & Hcalls).
    destruct (step_shape p ev)
      as [-> | [(a0 & address & _ & _ & ->) | [(a0 & id & rule & _ & _ & ->)
         | [(t & a & id & _ & Ht & ->) | [(t & a & id & m & _ & Ht & _ & ->)
         | [(t & a & id & _ & Ht & _ & ->) | (t & e & x & _ & Ht & Hx & ->)]]]]]];
      unfold spawn, set_task, cache;
      cbn [instances constructed document_head insertedBlankFonts tasks];
      rewrite ?length_app, ?pending_snoc; cbn [length awaiting];
      try (pose proof (pending_insert _ _ _ (AwaitBlankFont a id) Ht) as Hp1);
      try (pose proof (pending_insert _ _ _ (Fulfilled (length (constructed p))) Ht) as Hp2);
      try (pose proof (pending_insert _ _ _ (Rejected TypeError) Ht) as Hp3);
      try (pose proof (pending_insert _ _ _ (Rejected e) Ht) as Hp4);
      try rewrite Hx in *; cbn [awaiting] in *;
      rewrite ?length_insert; lia. }
  destruct Hinv as (Hrules & Hbuilt & Hcalls).
  destruct (page_invariant_run evs) as (Hlen & _). fold p in Hlen.
  repeat split; try assumption. lia.
Qed.

(** ** Rejections *)

(** X4: on a page that started empty, a call is rejected for one of two
    reasons only: the [TypeError] of the construction, or the very error
    with which the wait for a font was reported to fail. *)
Theorem rejections_are_TypeError_or_load_failures evs t e :
  tasks (run emptyPage evs) !! t = Some (Rejected e) ->
  e = TypeError \/ exists t', FontFailed t' e ∈ evs.
Proof.
  revert t e. induction evs as [|ev evs IH] using rev_ind; intros t e.
  - intros Hnone. inversion Hnone.
  - rewrite run_app. cbn [run foldl]. set (p := run emptyPage evs) in *.
    assert (Hold : forall t0, tasks p !! t0 = Some (Rejected e) ->
                   e = TypeError \/ exists t', FontFailed t' e ∈ evs ++ [ev]).
    { intros t0 Ht0. destruct (IH t0 e Ht0) as [-> | (t' & Hin)]; [left; reflexivity|].
      right. exists t'. apply elem_of_app. left. exact Hin. }
    assert (Hset : forall t0 x, x <> Rejected e ->
                   <[t0 := x]> (tasks p) !! t = Some (Rejected e) ->
                   tasks p !! t = Some (Rejected e)).
    { intros t0 x Hx Ht. destruct (decide (t0 = t)) as [->|Hne].
      - destruct (decide (t < length (tasks p))%nat) as [Hlt|Hge].
        + rewrite list_lookup_insert_eq in Ht by exact Hlt. congruence.
        + rewrite list_insert_ge in Ht by lia. exact Ht.
      - rewrite list_lookup_insert_ne in Ht by exact Hne. exact Ht. }
    assert (Hsnoc : forall x, x <> Rejected e ->
                    (tasks p ++ [x]) !! t = Some (Rejected e) ->
                    tasks p !! t = Some (Rejected e)).
    { intros x Hx Ht. apply lookup_app_Some in Ht as [Ht | [_ Ht]]; [exact Ht|].
      destruct (t - length (tasks p))%nat; [|inversion Ht].
      injection Ht as ->. congruence. }
    destruct (step_shape p ev)
      as [-> | [(a0 & address & _ & _ & ->) | [(a0 & id & rule & _ & _ & ->)
         | [(t1 & a & id & _ & Ht1 & ->) | [(t1 & a & id & m & _ & Ht1 & _ & ->)
         | [(t1 & a & id & _ & Ht1 & _ & ->) | (t1 & e1 & x & -> & Ht1 & Hx & ->)]]]]]];
      unfold spawn, set_task, cache; cbn [tasks]; intros Ht.
    + apply Hold with t, Ht.
    + apply Hold with t. eapply Hsnoc, Ht. discriminate.
    + apply Hold with t. eapply Hsnoc, Ht. discriminate.
    + apply Hold with t. eapply Hset, Ht. discriminate.
    + apply Hold with t. eapply Hset, Ht. discriminate.
    + destruct (decide (e = TypeError)) as [->|Hne]; [left; reflexivity|].
      apply Hold with t. eapply Hset, Ht. congruence.
    + destruct (decide (e1 = e)) as [->|Hne].
      * right. exists t1. apply elem_of_app. right. left.
      * apply Hold with t. eapply Hset, Ht. congruence.
Qed.

(** ** The construction *)

(** X5: a construction that succeeds measures ten texts on its fresh
    context, in this order and no other: the six anchor characters
    (capHeight, baseline, xHeight, descent, ascent, tittle), each as a
    string, then the four ligature characters; the glyph scan is not among
    them. The width cache starts empty, and the context carries the font
    "weight style sizepx family, AdobeBlank" (the backup face after the
    requested family), left alignment and the merged baseline. *)
Theorem construct_measures_ten_texts a m :
  construct a = Ok m ->
  exists merged cCapHeight cBaseline cXHeight cDescent cAscent cTittle,
    mergedOptions (options a) = Ok merged
    /\ anchorChar a (js "capHeight") = Ok cCapHeight
    /\ anchorChar a (js "baseline") = Ok cBaseline
    /\ anchorChar a (js "xHeight") = Ok cXHeight
    /\ anchorChar a (js "descent") = Ok cDescent
    /\ anchorChar a (js "ascent") = Ok cAscent
    /\ anchorChar a (js "tittle") = Ok cTittle
    /\ measured m
       = [ to_string cCapHeight; to_string cBaseline; to_string cXHeight;
           to_string cDescent; to_string cAscent; to_string cTittle;
           [64256]; [64257]; [64258]; [64262] ]
    /\ widths m = ∅
    /\ fontSize m = read merged (js "fontSize")
    /\ font (ctx m)
       = to_string (fontWeight a) ++ js " " ++ to_string (fontStyle a) ++ js " "
         ++ to_string (read merged (js "fontSize")) ++ js "px "
         ++ to_string (fontFamily a) ++ js ", AdobeBlank"
    /\ textAlign (ctx m) = js "left"
    /\ textBaseline (ctx m) = read merged (js "baseline").
Proof.
  intros Hm.
  destruct (construct_ok a m Hm)
    as (merged & c1 & c2 & c3 & c4 & c5 & c6 & Hmerged & H1 & H2 & H3 & H4 & H5 & H6 & ->).
  exists merged, c1, c2, c3, c4, c5, c6.
  unfold anchorChar. rewrite Hmerged. cbn [mbind result_bind].
  cbv zeta. rewrite probe_eq. unfold detectLigatures.
  rewrite detectLigatures_in_eq. cbn [fst snd measured widths fontSize ctx].
  repeat split; try assumption.
Qed.




Lemma defaultOptions_keys : NoDup (keys (own_enumerable defaultOptions)).
Proof. apply (bool_decide_unpack _). vm_compute. reflexivity. Qed.

Lemma mergedOptions_reads (o : object) k :
  NoDup (keys o) ->
  exists merged,
    mergedOptions (VObj o) = Ok merged
    /\ read merged k = default (read (own_enumerable defaultOptions) k) (own o k).
Proof.
  intros Hnodup. eexists. split; [reflexivity|].
  unfold read at 1. rewrite own_spread, (own_reverse o _ Hnodup).
  destruct (own o k) as [v|]; [reflexivity|].
  assert (Hdefaults : forall t,
             own (spread t defaultOptions) k
             = match own (own_enumerable defaultOptions) k with
               | Some v => Some v
               | None => own t k
               end).
  { intros t.
    change (spread t defaultOptions)
      with (spread t (VObj (own_enumerable defaultOptions))).
    rewrite own_spread, (own_reverse _ _ defaultOptions_keys). reflexivity. }
  rewrite Hdefaults. unfold read. cbn [default].
  destruct (own (own_enumerable defaultOptions) k) eqn:Hdefault; [reflexivity|].
  rewrite own_define. case_decide as Hk; [|reflexivity].
  subst k. vm_compute in Hdefault. discriminate.
Qed.

(** X6: the merged options read, name by name, the caller's property when
    the options object has one of that name (whatever its value, [undefined]
    included) and the default one otherwise, for any name, also one the
    defaults do not know. *)
Theorem mergedOptions_right_biased (o : object) k :
  NoDup (keys o) ->
  exists merged,
    mergedOptions (VObj o) = Ok merged
    /\ read merged k = default (read (own_enumerable defaultOptions) k) (own o k).
Proof. apply mergedOptions_reads. Qed.


(** ** The closures *)

Lemma define_fresh (o : object) k v : k ∉ keys o -> define o k v = o ++ [(k, v)].
Proof.
  unfold keys. induction o as [|[k0 v0] o IH]; intros Hfresh; [reflexivity|].
  rewrite fmap_cons, not_elem_of_cons in Hfresh. destruct Hfresh as [Hne Hfresh].
  cbn [define fst] in *. rewrite decide_False by congruence.
  rewrite (IH Hfresh). reflexivity.
Qed.

Lemma foldl_define_fresh (f : jstring -> value) ks (acc : object) :
  NoDup ks -> (forall k, k ∈ ks -> k ∉ keys acc) ->
  foldl (fun o k => define o k (f k)) acc ks = acc ++ ((fun k => (k, f k)) <$> ks).
Proof.
  revert acc. induction ks as [|k ks IH]; intros acc Hnodup Hfresh.
  - cbn. rewrite app_nil_r. reflexivity.
  - apply NoDup_cons in Hnodup as [Hk Hnodup]. cbn [foldl].
    rewrite define_fresh by (apply Hfresh; left).
    rewrite IH; [rewrite fmap_cons, <- app_assoc; reflexivity | exact Hnodup |].
    intros k' Hk'. unfold keys. rewrite fmap_app, elem_of_app. cbn.
    intros [Hin | Hin].
    + apply (Hfresh k'); [right; exact Hk' | exact Hin].
    + apply list_elem_of_singleton in Hin. congruence.
Qed.

Lemma own_elem_of (o : object) k v : NoDup (keys o) -> (k, v) ∈ o -> own o k = Some v.
Proof.
  unfold keys. induction o as [|[k0 v0] o IH]; intros Hnodup Hin; [inversion Hin|].
  rewrite fmap_cons in Hnodup. apply NoDup_cons in Hnodup as [Hk0 Hnodup].
  cbn [own]. apply elem_of_cons in Hin as [[= -> ->] | Hin].
  - rewrite decide_True by reflexivity. reflexivity.
  - rewrite decide_False; [exact (IH Hnodup Hin)|].
    intros ->. apply Hk0. cbn [fst].
    change k with (fst (k, v)). apply list_elem_of_fmap_2, Hin.
Qed.

(** X8: [measureText] returns the fields of the surface's [TextMetrics],
    as many and in the same order, each one divided by [fontSize] when it is
    truthy and unchanged when it is falsy; and it measures the surface on
    every call, without reading or writing the width cache. *)
Theorem measureText_keeps_the_fields string m :
  NoDup (keys (measureText (ctx m) (to_string string))) ->
  (metrics_measureText string m).1
  = (fun kv => (kv.1, if to_boolean kv.2
                      then VNum (to_number kv.2 / to_number (fontSize m))%float
                      else kv.2))
    <$> measureText (ctx m) (to_string string)
  /\ measured (metrics_measureText string m).2 = measured m ++ [to_string string]
  /\ widths (metrics_measureText string m).2 = widths m.
Proof.
  intros Hnodup. unfold metrics_measureText, ctx_measureText.
  cbn [fst snd measured widths with_state]. split; [|split; reflexivity].
  set (ms := measureText (ctx m) (to_string string)) in *.
  unfold normalize. rewrite foldl_define_fresh;
    [| exact Hnodup | intros k _ Hin; inversion Hin].
  cbn [app]. unfold keys. rewrite <- list_fmap_compose.
  apply list_fmap_ext. intros i [k v] Hi. cbn [compose fst snd].
  unfold normalized_value, read, js_div.
  rewrite (own_elem_of ms k v Hnodup) by (eapply list_elem_of_lookup_2, Hi).
  reflexivity.
Qed.

Lemma invoke_frame m c :
  capHeight (invoke m c) = capHeight m /\ baseline (invoke m c) = baseline m
  /\ xHeight (invoke m c) = xHeight m /\ descent (invoke m c) = descent m
  /\ ascent (invoke m c) = ascent m /\ tittle (invoke m c) = tittle m
  /\ ligatures (invoke m c) = ligatures m
  /\ ctx (invoke m c) = ctx m /\ fontSize (invoke m c) = fontSize m.
Proof.
  destruct c as [| string | string]; cbn [invoke].
  - repeat split.
  - unfold measureWidth.
    destruct (truthy (widths_get (widths m) (to_string string))); repeat split.
  - repeat split.
Qed.

Lemma invoke_all_frame m cs :
  capHeight (invoke_all m cs) = capHeight m /\ baseline (invoke_all m cs) = baseline m
  /\ xHeight (invoke_all m cs) = xHeight m /\ descent (invoke_all m cs) = descent m
  /\ ascent (invoke_all m cs) = ascent m /\ tittle (invoke_all m cs) = tittle m
  /\ ligatures (invoke_all m cs) = ligatures m
  /\ ctx (invoke_all m cs) = ctx m /\ fontSize (invoke_all m cs) = fontSize m.
Proof.
  revert m. induction cs as [|c cs IH]; intros m; [repeat split|].
  unfold invoke_all. cbn [foldl]. fold (invoke_all (invoke m c) cs).
  destruct (IH (invoke m c)) as (H1 & H2 & H3 & H4 & H5 & H6 & H7 & H8 & H9).
  destruct (invoke_frame m c) as (G1 & G2 & G3 & G4 & G5 & G6 & G7 & G8 & G9).
  rewrite H1, H2, H3, H4, H5, H6, H7, H8, H9. repeat split; assumption.
Qed.

Lemma invoke_grows m c :
  measured m `prefix_of` measured (invoke m c)
  /\ dom (widths m) ⊆@{gset jstring} dom (widths (invoke m c)).
Proof.
  destruct c as [| string | string]; cbn [invoke].
  - unfold getGlyphs, detectGlyphs. rewrite detectGlyphs_from_eq by lia.
    cbn [fst snd measured widths with_state]. split; [apply prefix_app_r|]; reflexivity.
  - destruct (truthy (widths_get (widths m) (to_string string))) eqn:Hcached.
    + rewrite (measureWidth_cached _ _ Hcached). split; reflexivity.
    + rewrite (measureWidth_fresh _ _ Hcached).
      cbn [fst snd measured widths with_state].
      split; [apply prefix_app_r; reflexivity | apply dom_insert_subseteq].
  - cbn [metrics_measureText ctx_measureText fst snd measured widths with_state].
    split; [apply prefix_app_r|]; reflexivity.
Qed.

(** X9: whatever closures were called before, and in whatever order, the
    seven precomputed fields of a Metrics object are as they were
    constructed, [getGlyphs] and [measureText] return what they would have
    returned on the fresh object, a width cached before is still cached, and
    the texts measured so far are still on record; and every call of
    [getGlyphs] measures 65536 texts anew, its result being cached nowhere. *)
Theorem closures_leave_the_metrics_alone m cs string :
  let m' := invoke_all m cs in
  (capHeight m' = capHeight m /\ baseline m' = baseline m
   /\ xHeight m' = xHeight m /\ descent m' = descent m
   /\ ascent m' = ascent m /\ tittle m' = tittle m /\ ligatures m' = ligatures m)
  /\ (getGlyphs m').1 = (getGlyphs m).1
  /\ (metrics_measureText string m').1 = (metrics_measureText string m).1
  /\ measured m `prefix_of` measured m'
  /\ dom (widths m) ⊆@{gset jstring} dom (widths m')
  /\ length (measured (getGlyphs m').2) = (length (measured m') + N.to_nat 65536)%nat.
Proof.
  intros m'. subst m'.
  destruct (invoke_all_frame m cs) as (H1 & H2 & H3 & H4 & H5 & H6 & H7 & H8 & H9).
  split; [repeat split; assumption|].
  assert (Hglyphs : forall m1, getGlyphs m1
             = (fromCharCode <$> filter (fun c => hasWidth (ctx m1) (fromCharCode c) = true)
                                        (codesFrom 0),
                with_state m1 (measured m1 ++ (fromCharCode <$> codesFrom 0)) (widths m1))).
  { intros m1. unfold getGlyphs, detectGlyphs.
    rewrite detectGlyphs_from_eq by lia. reflexivity. }
  rewrite !Hglyphs. cbn [fst snd measured with_state]. rewrite H8.
  split; [reflexivity|].
  unfold metrics_measureText, ctx_measureText. cbn [fst snd]. rewrite H8, H9.
  split; [reflexivity|].
  assert (Hgrows : measured m `prefix_of` measured (invoke_all m cs)
                   /\ dom (widths m) ⊆@{gset jstring} dom (widths (invoke_all m cs))).
  { clear. revert m. induction cs as [|c cs IH]; intros m; [split; reflexivity|].
    unfold invoke_all. cbn [foldl]. fold (invoke_all (invoke m c) cs).
    destruct (invoke_grows m c) as (Hm & Hw).
    destruct (IH (invoke m c)) as (Hm' & Hw').
    split; etrans; eassumption. }
  destruct Hgrows as (Hm & Hw). split; [exact Hm|]. split; [exact Hw|].
  rewrite length_app, length_fmap. unfold codesFrom.
  rewrite length_fmap, length_seq. reflexivity.
Qed.

(** The width cache holds nothing but widths: each entry is the width the
    surface reports for its key, divided by [fontSize]. *)
Lemma invoke_all_sound m cs :
  (forall k v, widths m !! k = Some v ->
               v = VNum (to_number (rawWidth (ctx m) (VStr k)) / to_number (fontSize m))%float) ->
  forall k v, widths (invoke_all m cs) !! k = Some v ->
              v = VNum (to_number (rawWidth (ctx m) (VStr k)) / to_number (fontSize m))%float.
Proof.
  revert m. induction cs as [|c cs IH]; intros m Hsound; [exact Hsound|].
  unfold invoke_all. cbn [foldl]. fold (invoke_all (invoke m c) cs).
  destruct (invoke_frame m c) as (_ & _ & _ & _ & _ & _ & _ & Hctx & Hsize).
  intros k v Hk. rewrite <- Hctx, <- Hsize. revert k v Hk. apply IH.
  rewrite Hctx, Hsize. destruct c as [| string | string]; cbn [invoke].
  - exact Hsound.
  - destruct (truthy (widths_get (widths m) (to_string string))) eqn:Hcached.
    + rewrite (measureWidth_cached _ _ Hcached). exact Hsound.
    + rewrite (measureWidth_fresh _ _ Hcached). cbn [snd widths with_state].
      intros k v Hk. destruct (decide (to_string string = k)) as [<-|Hne].
      * rewrite lookup_insert_eq in Hk. injection Hk as <-. reflexivity.
      * rewrite lookup_insert_ne in Hk by exact Hne. exact (Hsound k v Hk).
  - exact Hsound.
Qed.

(** X10: on a constructed instance, after any calls of its closures,
    [measureWidth] of a string that does not name a member of
    [Object.prototype] returns the width the surface reports for it divided
    by [fontSize]: the cache never makes it return a width of another string
    or a stale one. *)
Theorem measureWidth_returns_the_width a m cs string :
  construct a = Ok m ->
  to_string string ∉ objectPrototype ->
  (measureWidth string (invoke_all m cs)).1
  = Plain (VNum (to_number (rawWidth (ctx m) string) / to_number (fontSize m))%float).
Proof.
  intros Hm Hname.
  assert (Hempty : widths m = ∅).
  { destruct (construct_ok a m Hm)
      as (merged & c1 & c2 & c3 & c4 & c5 & c6 & _ & _ & _ & _ & _ & _ & _ & ->).
    cbv zeta. rewrite probe_eq. reflexivity. }
  assert (Hsound := invoke_all_sound m cs).
  destruct (invoke_all_frame m cs) as (_ & _ & _ & _ & _ & _ & _ & Hctx & Hsize).
  set (m' := invoke_all m cs) in *.
  destruct (truthy (widths_get (widths m') (to_string string))) eqn:Hcached.
  - rewrite (measureWidth_cached _ _ Hcached). cbn [fst].
    unfold widths_get in *. destruct (widths m' !! to_string string) as [v|] eqn:Hv.
    + f_equal. apply Hsound; [|exact Hv].
      intros k v0. rewrite Hempty, lookup_empty. discriminate.
    + rewrite bool_decide_eq_false_2 in Hcached by exact Hname. discriminate.
  - rewrite (measureWidth_fresh _ _ Hcached). cbn [fst]. rewrite Hctx, Hsize.
    reflexivity.
Qed.

Lemma invoke_keeps_truthy m c k v :
  widths m !! k = Some v -> to_boolean v = true ->
  widths (invoke m c) !! k = Some v.
Proof.
  intros Hk Hv. destruct c as [| string | string]; cbn [invoke]; try exact Hk.
  destruct (truthy (widths_get (widths m) (to_string string))) eqn:Hcached.
  - rewrite (measureWidth_cached _ _ Hcached). exact Hk.
  - rewrite (measureWidth_fresh _ _ Hcached). cbn [snd widths with_state].
    rewrite lookup_insert_ne; [exact Hk|]. intros Heq.
    unfold widths_get in Hcached. rewrite Heq, Hk in Hcached. cbn in Hcached.
    congruence.
Qed.

(** X11: once a truthy width is stored for a string, [measureWidth] of that
    string returns it without measuring the surface and without changing
    anything, whatever closures were called in between. *)
Theorem stored_width_is_not_measured_again m cs string v :
  widths m !! to_string string = Some v ->
  to_boolean v = true ->
  measureWidth string (invoke_all m cs) = (Plain v, invoke_all m cs).
Proof.
  intros Hk Hv.
  assert (Hkept : widths (invoke_all m cs) !! to_string string = Some v).
  { revert m Hk. induction cs as [|c cs IH]; intros m Hk; [exact Hk|].
    unfold invoke_all. cbn [foldl]. fold (invoke_all (invoke m c) cs).
    apply IH, invoke_keeps_truthy; assumption. }
  assert (Hget : widths_get (widths (invoke_all m cs)) (to_string string) = Plain v)
    by (unfold widths_get; rewrite Hkept; reflexivity).
  rewrite measureWidth_cached by (rewrite Hget; exact Hv).
  rewrite Hget. reflexivity.
Qed.

(** X12: an event changes what the cache holds under a key in one case
    only: it reports the second font loaded to a task that was called for
    that very key, and the construction succeeds; the key then holds the
    address of the new object. Calls, failed waits and constructions for
    other keys leave the entry as it was. *)
Theorem cache_entry_changes_with_its_own_key_only p ev id :
  instances (step p ev) !! id = instances p !! id
  \/ exists t a m,
       ev = FontLoaded t
       /\ tasks p !! t = Some (AwaitBlankFont a id)
       /\ construct a = Ok m
       /\ instances (step p ev) !! id = Some (length (constructed p))
       /\ constructed (step p ev) = constructed p ++ [(id, m)].
Proof.
  destruct (step_shape p ev)
    as [-> | [(a0 & address & _ & _ & ->) | [(a0 & id0 & rule & _ & _ & ->)
       | [(t & a & id0 & _ & Ht & ->) | [(t & a & id0 & m & -> & Ht & Hm & ->)
       | [(t & a & id0 & _ & Ht & _ & ->) | (t & e & x & _ & Ht & Hx & ->)]]]]]];
    try (left; reflexivity).
  unfold set_task, cache. cbn [instances constructed].
  destruct (decide (id0 = id)) as [->|Hne].
  - right. exists t, a, m. rewrite lookup_insert_eq. auto.
  - left. apply lookup_insert_ne, Hne.
Qed.

End Further.

(** * Further runs

    The scenarios of the properties of the cache over time and of the
    further properties, on the monospaced font. *)

Section FurtherRuns.

#[local] Existing Instance monospace.


Lemma getId_collision_witness :
  let arial4 := Settings (VStr (js "Arial4")) (VStr (js "00")) (VStr (js "normal")) VUndef in
  let arial := Settings (VStr (js "Arial")) (VStr (js "400")) (VStr (js "normal")) VUndef in
  let p1 := run emptyPage [Call arial4; FontLoaded 0; FontLoaded 0] in
  tasks p1 !! 0%nat = Some (Fulfilled 0)
  /\ instances p1 !! getId (with_defaults arial) = Some 0%nat
  /\ tasks (step p1 (Call arial)) !! 1%nat = Some (Fulfilled 0)
  /\ constructed (step p1 (Call arial)) = constructed p1
  /\ exists m, constructed (step p1 (Call arial)) !! 0%nat
               = Some (getId (with_defaults arial), m).
Proof.
  intros arial4 arial p1.
  assert (Hfirst : tasks p1 !! 0%nat = Some (Fulfilled 0)) by (vm_compute; reflexivity).
  destruct (getId_is_not_injective (VStr (js "normal")) VUndef emptyPage)
    as (_ & _ & _ & _ & _ & Hshared).
  destruct (Hshared 0%nat Hfirst) as (Hcached & Hsecond & Hbuilt & _ & _ & Hobject).
  exact (conj Hfirst (conj Hcached (conj Hsecond (conj Hbuilt (Hobject [] eq_refl))))).
Defined.

Lemma rejections_witness :
  tasks (run emptyPage [Call helvetica; FontFailed 0 loadTimeout]) !! 0%nat
  = Some (Rejected loadTimeout)
  /\ (loadTimeout = TypeError
      \/ exists t', FontFailed t' loadTimeout ∈ [Call helvetica; FontFailed 0 loadTimeout]).
Proof.
  assert (Hrejected : tasks (run emptyPage [Call helvetica; FontFailed 0 loadTimeout])
                        !! 0%nat = Some (Rejected loadTimeout))
    by (vm_compute; reflexivity).
  exact (conj Hrejected
           (rejections_are_TypeError_or_load_failures _ _ _ Hrejected)).
Defined.

Lemma construct_witness :
  exists m,
    construct (with_defaults helvetica) = Ok m
    /\ length (measured m) = 10%nat
    /\ widths m = ∅
    /\ textAlign (ctx m) = js "left".
Proof.
  eexists. split; [vm_compute; reflexivity|].
  match goal with |- context [widths ?m = ∅] =>
    assert (Hm : construct (with_defaults helvetica) = Ok m)
      by (vm_compute; reflexivity);
    destruct (construct_measures_ten_texts (with_defaults helvetica) m Hm)
      as (merged & c1 & c2 & c3 & c4 & c5 & c6 & _ & _ & _ & _ & _ & _ & _
          & Hmeasured & Hwidths & _ & _ & Halign & _);
    rewrite Hmeasured
  end.
  exact (conj eq_refl (conj Hwidths Halign)).
Defined.

Lemma mergedOptions_witness :
  NoDup (keys [ (js "fontSize", VNum 100%float) ])
  /\ exists merged,
       mergedOptions (VObj [ (js "fontSize", VNum 100%float) ]) = Ok merged
       /\ read merged (js "fontSize") = VNum 100%float
       /\ read merged (js "baseline") = VStr (js "top").
Proof.
  assert (Hnodup : NoDup (keys [ (js "fontSize", VNum 100%float) ]))
    by (apply (bool_decide_unpack _); vm_compute; reflexivity).
  split; [exact Hnodup|].
  destruct (mergedOptions_right_biased _ (js "fontSize") Hnodup) as (merged & Hmerged & Hsize).
  destruct (mergedOptions_right_biased _ (js "baseline") Hnodup) as (merged' & Hmerged' & Hbase).
  rewrite Hmerged in Hmerged'. injection Hmerged' as <-.
  exists merged. split; [exact Hmerged|]. split.
  - rewrite Hsize. reflexivity.
  - rewrite Hbase. vm_compute. reflexivity.
Defined.


Lemma measureText_witness :
  exists m,
    construct (with_defaults helvetica) = Ok m
    /\ NoDup (keys (measureText (ctx m) (js "ab")))
    /\ measured (metrics_measureText (VStr (js "ab")) m).2 = measured m ++ [js "ab"].
Proof.
  eexists. split; [vm_compute; reflexivity|].
  match goal with |- NoDup (keys (measureText (ctx ?m) _)) /\ _ =>
    assert (Hnodup : NoDup (keys (measureText (ctx m) (to_string (VStr (js "ab"))))))
      by (apply (bool_decide_unpack _); vm_compute; reflexivity);
    destruct (measureText_keeps_the_fields (VStr (js "ab")) m Hnodup)
      as (_ & Hmeasured & _)
  end.
  exact (conj Hnodup Hmeasured).
Defined.

Lemma measureWidth_witness :
  exists m,
    construct (with_defaults helvetica) = Ok m
    /\ (js "ab" ∉ objectPrototype)
    /\ (measureWidth (VStr (js "ab"))
          (invoke_all m [MeasureWidth (VStr (js "ab")); MeasureText (VStr (js "c"))])).1
       = Plain (VNum (to_number (rawWidth (ctx m) (VStr (js "ab")))
                      / to_number (fontSize m))%float).
Proof.
  eexists. split; [vm_compute; reflexivity|].
  assert (Hname : js "ab" ∉ objectPrototype)
    by (apply (bool_decide_unpack _); vm_compute; reflexivity).
  split; [exact Hname|].
  match goal with |- context [invoke_all ?m _] =>
    assert (Hm : construct (with_defaults helvetica) = Ok m)
      by (vm_compute; reflexivity);
    exact (measureWidth_returns_the_width (with_defaults helvetica) m _
             (VStr (js "ab")) Hm Hname)
  end.
Defined.

Lemma stored_width_witness :
  exists m,
    construct (with_defaults helvetica) = Ok m
    /\ let m1 := (measureWidth (VStr (js "ab")) m).2 in
       let cs := [MeasureText (VStr (js "c")); MeasureWidth (VStr (js "d"))] in
       widths m1 !! js "ab" = Some (VNum 1%float)
       /\ measureWidth (VStr (js "ab")) (invoke_all m1 cs)
          = (Plain (VNum 1%float), invoke_all m1 cs).
Proof.
  eexists. split; [vm_compute; reflexivity|].
  intros m1 cs.
  assert (Hstored : widths m1 !! to_string (VStr (js "ab")) = Some (VNum 1%float))
    by (vm_compute; reflexivity).
  split; [exact Hstored|].
  exact (stored_width_is_not_measured_again m1 cs (VStr (js "ab")) _ Hstored eq_refl).
Defined.

End FurtherRuns.
